(** * A shallow embedding of the sensor-reading batch loader

    The development follows the two source files:
    - [scripts/data_cleaner.py]: the [DataCleaner] class, in [Module Cleaner];
    - [scripts/batch_loader.py]: the [BatchLoader] class and
      [get_csv_row_count], in [Module Loader], on the primitives of
      [Module Py].

    [Module Session] holds what runs are compared with, [Module Scenario]
    the concrete worlds of the examples; the properties follow in
    [CleanerFacts], [RowCountFacts], [LoaderFacts] and [Examples].

    Python integers are [Z]; the rows of a pandas [DataFrame] are an ordered
    list; a [NaN] cell is [None]; mutable objects (the cleaner's counters,
    the clock, the Mongo collection) are threaded through an explicit state,
    and a Python exception is the [Raise] outcome of a call.  What pandas,
    pymongo, the file system and the clock do is given from outside, in
    [Loader.Env]. *)

From stdpp Require Import gmap strings list pretty.
From Stdlib Require Import ZArith Lia.

Local Open Scope Z_scope.

(** ** Records and frames *)

(** A parsed cell value.  The loader never looks inside a value: it only
    compares the cells of the [ts] and [device] columns and tests them for
    presence. *)
Inductive Value : Type :=
  | VNum (z : Z)
  | VStr (s : string).

#[global] Instance Value_eq_dec : EqDecision Value.
Proof. solve_decision. Defined.

(** A cell of a frame: [None] is pandas' [NaN] (an empty field in the file). *)
Definition Cell : Type := option Value.

(** One data row of a frame: its cells in the columns [ts] and [device],
    and the remaining columns, which are carried along untouched.  Whether
    the frame has the two columns at all is a matter of the frame
    ([Loader.Frame]): the cleaner is handed the rows only when it has them,
    and on a frame without them the two cells of a row are never looked
    at. *)
Record Row : Type := mkRow {
  ts : Cell;
  device : Cell;
  fields : list (string * Cell)
}.

#[global] Instance Row_eq_dec : EqDecision Row.
Proof. solve_decision. Defined.

(** The rows of a [DataFrame] that has the columns [ts] and [device], in
    order; [len(df)] is [len df]. *)
Abbreviation DataFrame := (list Row) (only parsing).

Definition len {A} (l : list A) : Z := Z.of_nat (length l).

(** ** [scripts/data_cleaner.py] *)

Module Cleaner.

(** [self.stats]: a dict with exactly the two keys set in [__init__]. *)
Record CleansingStats : Type := mkStats {
  duplicates_removed : Z;
  missing_values_dropped : Z
}.

#[global] Instance CleansingStats_eq_dec : EqDecision CleansingStats.
Proof. solve_decision. Defined.

Record DataCleaner : Type := mkCleaner { stats : CleansingStats }.

(** [DataCleaner.__init__] *)
Definition __init__ : DataCleaner :=
  {| stats := {| duplicates_removed := 0; missing_values_dropped := 0 |} |}.

(** The [subset=['ts', 'device']] of a row.  pandas compares [NaN] cells as
    equal when it looks for duplicates, which is equality on [option]. *)
Definition subset_key (r : Row) : Cell * Cell := (ts r, device r).

(** [df.drop_duplicates(subset=['ts', 'device'], keep='first')]: scan the
    rows in order, keep a row when no earlier row had its key. *)
Fixpoint drop_duplicates_from (seen : list (Cell * Cell)) (df : DataFrame)
  : DataFrame :=
  match df with
  | [] => []
  | r :: rest =>
      if decide (subset_key r ∈ seen)
      then drop_duplicates_from seen rest
      else r :: drop_duplicates_from (subset_key r :: seen) rest
  end.

Definition drop_duplicates (df : DataFrame) : DataFrame :=
  drop_duplicates_from [] df.

(** A row survives [dropna(subset=['ts', 'device'])] when both cells are
    present. *)
Definition notna (r : Row) : Prop := is_Some (ts r) ∧ is_Some (device r).

#[global] Instance notna_dec r : Decision (notna r).
Proof. unfold notna. apply _. Defined.

Definition dropna (df : DataFrame) : DataFrame := filter notna df.

(** [_remove_duplicates] *)
Definition _remove_duplicates (self : DataCleaner) (df : DataFrame)
  : DataFrame * DataCleaner :=
  let before := len df in
  let df := drop_duplicates df in
  (df, {| stats := {|
      duplicates_removed := duplicates_removed (stats self) + (before - len df);
      missing_values_dropped := missing_values_dropped (stats self) |} |}).

(** [_handle_missing_values] *)
Definition _handle_missing_values (self : DataCleaner) (df : DataFrame)
  : DataFrame * DataCleaner :=
  let before := len df in
  let df := dropna df in
  (df, {| stats := {|
      duplicates_removed := duplicates_removed (stats self);
      missing_values_dropped :=
        missing_values_dropped (stats self) + (before - len df) |} |}).

(** [cleanse]: duplicates first, then missing values; the two log lines have
    no effect on the result. *)
Definition cleanse (self : DataCleaner) (df : DataFrame)
  : DataFrame * DataCleaner :=
  let '(df, self) := _remove_duplicates self df in
  let '(df, self) := _handle_missing_values self df in
  (df, self).

(** The sum of the two counters. *)
Definition dropped_total (s : CleansingStats) : Z :=
  duplicates_removed s + missing_values_dropped s.

End Cleaner.

(** ** The Python and library primitives the loader calls *)

Module Py.

(** [e.details] of a [BulkWriteError]: the number of documents written and
    the positions, in the batch, of the rejected ones. *)
Record BulkDetails : Type := mkDetails {
  nInserted : option Z;
  writeErrors : list nat
}.

(** The exceptions of a run, each by the class that is raised.  The script
    has one handler, for [BulkWriteError]; no other class is caught
    anywhere, so that the class hierarchy ([ParserError], [EmptyDataError]
    and [UnicodeDecodeError] are subclasses of [ValueError]) does not show
    in what a call does. *)
Inductive Exn : Type :=
  | FileNotFoundError            (* [open] / [pd.read_csv] on a missing file *)
  | UnicodeDecodeError           (* bytes the codec cannot decode *)
  | EmptyDataError               (* [pd.read_csv] finds no header line *)
  | ParserError                  (* [pd.read_csv] cannot tokenize a line *)
  | ValueError                   (* a rejected argument *)
  | KeyError                     (* a column the frame does not have *)
  | TypeError                    (* [insert_many] on an empty list *)
  | BulkWriteError (details : BulkDetails)
  | ServerSelectionTimeoutError  (* the store cannot be reached *)
  | Other (cls : string).        (* an exception of any other class *)

(** The outcome of a call: a value or a raised exception, never both. *)
Inductive result (A : Type) : Type :=
  | Return (a : A)
  | Raise (e : Exn).
Arguments Return {A} a.
Arguments Raise {A} e.

(** [range(start, stop, step)]; a zero step is a [ValueError]. *)
Definition range (start stop step : Z) : result (list Z) :=
  if decide (step = 0) then Raise ValueError
  else if decide (0 < step)
  then Return ((λ k, start + Z.of_nat k * step) <$>
                 seq 0 (Z.to_nat ((stop - start + step - 1) `div` step)))
  else Return ((λ k, start + Z.of_nat k * step) <$>
                 seq 0 (Z.to_nat ((start - stop - step - 1) `div` (- step)))).

(** One bound of a slice: a negative bound counts from the end, and the
    bound is clamped to the list. *)
Definition slice_bound {A} (l : list A) (i : Z) : nat :=
  Z.to_nat (Z.min (len l) (if decide (i < 0) then Z.max 0 (len l + i) else i)).

(** [l[i:j]] *)
Definition slice {A} (l : list A) (i j : Z) : list A :=
  take (slice_bound l j - slice_bound l i) (drop (slice_bound l i) l).

Definition LF : Ascii.ascii := Ascii.Ascii false true false true false false false false.
Definition CR : Ascii.ascii := Ascii.Ascii true false true true false false false false.

(** Iterating over a file opened in text mode with universal newlines: a
    line ends at ["\n"], ["\r\n"] or ["\r"], the terminator is handed over
    as ["\n"], and a last line without terminator is a line when it is not
    empty.  [cur] is the part of the current line read so far. *)
Fixpoint readlines_from (cur : string) (s : string) : list string :=
  match s with
  | EmptyString => if decide (cur = EmptyString) then [] else [cur]
  | String c rest =>
      if decide (c = LF)
      then (cur +:+ String LF EmptyString) :: readlines_from EmptyString rest
      else if decide (c = CR)
      then match rest with
           | String c' rest' =>
               if decide (c' = LF)
               then (cur +:+ String LF EmptyString)
                      :: readlines_from EmptyString rest'
               else (cur +:+ String LF EmptyString)
                      :: readlines_from EmptyString rest
           | EmptyString => [cur +:+ String LF EmptyString]
           end
      else readlines_from (cur +:+ String c EmptyString) rest
  end.

Definition readlines (s : string) : list string :=
  readlines_from EmptyString s.

(** A line of text holds no line terminator. *)
Fixpoint no_newline (s : string) : bool :=
  match s with
  | EmptyString => true
  | String c rest =>
      bool_decide (c ≠ LF) && bool_decide (c ≠ CR) && no_newline rest
  end.

(** The text of a file made of the line [first] and the lines [rest], each
    line but the last ended by ["\n"], the last one only when [trailing]. *)
Fixpoint write_lines (first : string) (rest : list string) (trailing : bool)
  : string :=
  match rest with
  | [] => first +:+ (if trailing then String LF EmptyString else EmptyString)
  | l :: rest' =>
      first +:+ String LF EmptyString +:+ write_lines l rest' trailing
  end.

End Py.

(** ** [scripts/batch_loader.py] *)

Module Loader.
Import Py.

(** The [_metadata] dict attached to a row; [load_full_csv] attaches no
    [source_rows]. *)
Record Metadata : Type := mkMetadata {
  ingested_at : Z;
  batch_id : string;
  source_rows : option string
}.

(** One element of [df.to_dict('records')]: the row and its [_metadata]. *)
Record Document : Type := mkDocument {
  row : Row;
  _metadata : Metadata
}.

(** A [DataFrame] as [pd.read_csv] returns it: the names of its columns
    and its rows. *)
Record Frame : Type := mkFrame {
  columns : list string;
  data : list Row
}.

Record InsertManyResult : Type := mkInsertManyResult {
  inserted_ids : list nat
}.

(** The collaborators of a run, fixed from outside:
    - [files]: what [open(path, 'r')] and reading to the end give: the
      decoded text, or the exception raised (a missing file, bytes that
      cannot be decoded);
    - [csv_lines]: the lines pandas' tokenizer finds in the file at a path,
      numbered from 0, [None] for a blank line and the raw text of the line
      otherwise, or the exception raised when the file is opened (pandas
      reads the bytes itself);
    - [header_names]: the column names pandas takes from a header line;
    - [parse_error header lines]: the exception pandas raises on these data
      lines under this header, if any (a line it cannot tokenize or
      decode);
    - [parse_row header lines line]: the row [line] becomes in a read of
      the data lines [lines] under this header; the column types are
      inferred over the lines of the read, so that the same line can give
      different values in different reads;
    - [now k]: what the [k]-th call of [datetime.now()] returns;
    - [strftime]: [t.strftime('%Y%m%d_%H%M%S')];
    - [reachable k]: whether the store answers the [k]-th [insert_many];
    - [rejects k i]: whether the store rejects the document at position [i]
      of the batch of the [k]-th [insert_many]. *)
Record Env : Type := mkEnv {
  files : string → result string;
  csv_lines : string → result (list (option string));
  header_names : string → list string;
  parse_error : string → list string → option Exn;
  parse_row : string → list string → string → Row;
  now : nat → Z;
  strftime : Z → string;
  reachable : nat → bool;
  rejects : nat → nat → bool
}.

(** The fields of a [BatchLoader] that its methods read; the connection
    settings only select the collection. *)
Record BatchLoader : Type := mkLoader {
  batch_size : Z;
  cleaner : Cleaner.DataCleaner
}.

(** [BatchLoader.__init__]: one new [DataCleaner] per loader. *)
Definition __init__ (batch_size : Z) : BatchLoader :=
  {| batch_size := batch_size; cleaner := Cleaner.__init__ |}.

(** The mutable part of a run: the loader object, how often the clock was
    read, how many bulk writes were sent, and the collection's content. *)
Record State : Type := mkState {
  self : BatchLoader;
  now_calls : nat;
  insert_calls : nat;
  collection : list Document
}.

(** A value of the returned statistics dict. *)
Inductive StatValue : Type :=
  | SInt (z : Z)
  | SStr (s : string)
  | SDict (c : Cleaner.CleansingStats).

(** A method body: it reads and updates the state and returns or raises. *)
Definition M (A : Type) : Type := State → result A * State.

#[global] Instance M_ret : MRet M := λ A a st, (Return a, st).

#[global] Instance M_bind : MBind M := λ A B f m st,
  match m st with
  | (Return a, st') => f a st'
  | (Raise e, st') => (Raise e, st')
  end.

Definition lift {A} (r : result A) : M A := λ st, (r, st).

(** [try: ... except BulkWriteError as e: ...]; any other exception goes
    on to the caller. *)
Definition try_except_BulkWriteError {A} (body : M A)
    (handler : BulkDetails → M A) : M A := λ st,
  match body st with
  | (Raise (BulkWriteError details), st') => handler details st'
  | other => other
  end.

(** The three updates of the state. *)
Definition with_cleaner (c : Cleaner.DataCleaner) (st : State) : State :=
  {| self := {| batch_size := batch_size (self st); cleaner := c |};
     now_calls := now_calls st;
     insert_calls := insert_calls st;
     collection := collection st |}.

Definition with_now_calls (n : nat) (st : State) : State :=
  {| self := self st; now_calls := n;
     insert_calls := insert_calls st; collection := collection st |}.

Definition with_store (k : nat) (docs : list Document) (st : State) : State :=
  {| self := self st; now_calls := now_calls st;
     insert_calls := k; collection := docs |}.

Definition get_self : M BatchLoader := λ st, (Return (self st), st).

Definition set_cleaner (c : Cleaner.DataCleaner) : M unit := λ st,
  (Return (), with_cleaner c st).

(** What pandas does with [subset=['ts', 'device']] before it looks at a
    row: a [KeyError] when one of the two is no column of the frame. *)
Definition subset_columns (df : Frame) : result DataFrame :=
  if decide ("ts" ∈ columns df ∧ "device" ∈ columns df)
  then Return (data df)
  else Raise KeyError.

(** [self.cleaner.cleanse(df)]; the [KeyError] of a frame without the two
    columns leaves the counters as they were. *)
Definition cleanse (df : Frame) : M DataFrame :=
  self ← get_self;
  rows ← lift (subset_columns df);
  let '(df, c) := Cleaner.cleanse (cleaner self) rows in
  _ ← set_cleaner c;
  mret df.

(** The lines left after [skiprows]: [lineno] is the number of the first
    of [lines] in the file.  [skiprows] names lines of the file as they
    are numbered there, blank lines included. *)
Fixpoint skip_lines {A} (skiprows : Z → bool) (lineno : Z) (lines : list A)
  : list A :=
  match lines with
  | [] => []
  | l :: rest =>
      if skiprows lineno then skip_lines skiprows (lineno + 1) rest
      else l :: skip_lines skiprows (lineno + 1) rest
  end.

(** Membership in [range(a, b)], as [skiprows] uses it. *)
Definition in_range (a b : Z) (i : Z) : bool := bool_decide (a ≤ i < b).

(** The accepted documents and the positions of the rejected ones, for a
    batch whose first document has position [i]. *)
Fixpoint accepted (rej : nat → bool) (i : nat) (docs : list Document)
  : list Document :=
  match docs with
  | [] => []
  | d :: rest =>
      if rej i then accepted rej (S i) rest
      else d :: accepted rej (S i) rest
  end.

Fixpoint rejected (rej : nat → bool) (i : nat) (docs : list Document)
  : list nat :=
  match docs with
  | [] => []
  | d :: rest =>
      if rej i then i :: rejected rej (S i) rest
      else rejected rej (S i) rest
  end.

Section WithEnv.
Context (env : Env).

(** [datetime.now()] *)
Definition datetime_now : M Z := λ st,
  (Return (now env (now_calls st)), with_now_calls (S (now_calls st)) st).

(** The frame pandas makes of a header line and the data lines of a read.
    Without data lines the frame comes from the header alone. *)
Definition parse_frame (header : string) (lines : list string)
  : result Frame :=
  match lines with
  | [] => Return {| columns := header_names env header; data := [] |}
  | _ =>
      match parse_error env header lines with
      | Some e => Raise e
      | None =>
          Return {| columns := header_names env header;
                    data := parse_row env header lines <$> lines |}
      end
  end.

(** [pd.read_csv(filepath, skiprows=..., nrows=...)].  The lines named by
    [skiprows] are dropped first, by their number in the file; of the lines
    left, the blank ones are passed over, the first one is the header, and
    the next [nrows] (all, without [nrows]) are the data lines that are
    parsed.  The header is read when the file is opened; a negative [nrows]
    is rejected after that and before any data line is looked at.  Reading
    changes no state. *)
Definition read_csv (filepath : string) (skiprows : Z → bool)
    (nrows : option Z) : result Frame :=
  match csv_lines env filepath with
  | Raise e => Raise e
  | Return lines =>
      match omap id (skip_lines skiprows 0 lines) with
      | [] => Raise EmptyDataError
      | header :: rest =>
          match nrows with
          | None => parse_frame header rest
          | Some n =>
              if decide (n < 0) then Raise ValueError
              else parse_frame header (take (Z.to_nat n) rest)
          end
      end
  end.

(** [collection.insert_many(documents, ordered=False)]: every document is
    attempted; the accepted ones are stored; one rejection or more is
    reported by a [BulkWriteError] that carries the number written. *)
Definition insert_many (documents : list Document) : M InsertManyResult :=
  λ st,
  match documents with
  | [] => (Raise TypeError, st)
  | _ =>
      let k := insert_calls st in
      if reachable env k then
        let ok := accepted (rejects env k) 0 documents in
        let errors := rejected (rejects env k) 0 documents in
        let st' := with_store (S k) (collection st ++ ok) st in
        match errors with
        | [] => (Return {| inserted_ids :=
                   seq (length (collection st)) (length documents) |}, st')
        | _ => (Raise (BulkWriteError
                  {| nInserted := Some (len ok); writeErrors := errors |}),
                st')
        end
      else
        (Raise ServerSelectionTimeoutError,
         with_store (S k) (collection st) st)
  end.

(** The row pandas tries a function on when the frame has no rows. *)
Definition empty_row : Row := {| ts := None; device := None; fields := [] |}.

(** [f] called once for every row, in order; its dict becomes the
    [_metadata] of that row. *)
Fixpoint apply_each (f : Row → M Metadata) (df : DataFrame)
  : M (list Document) :=
  match df with
  | [] => mret []
  | r :: rest =>
      m ← f r;
      docs ← apply_each f rest;
      mret ({| row := r; _metadata := m |} :: docs)
  end.

(** [df.apply(f, axis=1)] followed by [to_dict('records')].  On a frame
    without rows pandas calls [f] once, on an empty row, to see what kind
    of value it returns, and drops the result: no record comes of it, but
    the call is made. *)
Definition apply_rows (f : Row → M Metadata) (df : DataFrame)
  : M (list Document) :=
  match df with
  | [] => _ ← f empty_row; mret []
  | _ => apply_each f df
  end.

(** The body of the write loop for one [i]. *)
Definition insert_batch (records : list Document) (batch_size i : Z)
  : M Z :=
  let batch := slice records i (i + batch_size) in
  try_except_BulkWriteError
    (result ← insert_many batch; mret (len (inserted_ids result)))
    (λ details, mret (default 0 (nInserted details))).

(** [for i in ...: ...], with [inserted_count] as accumulator. *)
Fixpoint insert_loop (records : list Document) (batch_size : Z)
    (idxs : list Z) (inserted_count : Z) : M Z :=
  match idxs with
  | [] => mret inserted_count
  | i :: rest =>
      n ← insert_batch records batch_size i;
      insert_loop records batch_size rest (inserted_count + n)
  end.

(** Lines 64 to 73 and 105 to 115: the whole write loop. *)
Definition insert_all (records : list Document) : M Z :=
  self ← get_self;
  idxs ← lift (range 0 (len records) (batch_size self));
  insert_loop records (batch_size self) idxs 0.

Definition snapshot : M Cleaner.CleansingStats :=
  self ← get_self; mret (Cleaner.stats (cleaner self)).

(** [load_csv_chunk] *)
Definition load_csv_chunk (filepath : string) (start_row end_row : Z)
    (batch_id : string) : M (gmap string StatValue) :=
  let nrows := end_row - start_row in
  df ← lift (read_csv filepath (in_range 1 (start_row + 1)) (Some nrows));
  df ← cleanse df;
  records ← apply_rows (λ _,
      t ← datetime_now;
      mret {| ingested_at := t;
              batch_id := batch_id;
              source_rows :=
                Some (pretty start_row +:+ "-" +:+ pretty end_row) |}) df;
  inserted_count ← insert_all records;
  cleansing_stats ← snapshot;
  mret (<["rows_read" := SInt nrows]>
        (<["rows_after_cleansing" := SInt (len df)]>
        (<["rows_inserted" := SInt inserted_count]>
        (<["cleansing_stats" := SDict cleansing_stats]>
        (<["batch_id" := SStr batch_id]> ∅))))).

(** [batch_id or f"full_{...}"]: [None] and the empty string are falsy. *)
Definition batch_id_or_default (batch_id : option string) : M string :=
  match batch_id with
  | Some s =>
      if decide (s = EmptyString)
      then t ← datetime_now; mret ("full_" +:+ strftime env t)
      else mret s
  | None => t ← datetime_now; mret ("full_" +:+ strftime env t)
  end.

(** [load_full_csv] *)
Definition load_full_csv (filepath : string) (batch_id : option string)
  : M (gmap string StatValue) :=
  batch_id ← batch_id_or_default batch_id;
  df ← lift (read_csv filepath (λ _, false) None);
  let total_rows := len (data df) in
  df ← cleanse df;
  records ← apply_rows (λ _,
      t ← datetime_now;
      mret {| ingested_at := t;
              batch_id := batch_id;
              source_rows := None |}) df;
  inserted_count ← insert_all records;
  cleansing_stats ← snapshot;
  mret (<["total_rows_read" := SInt total_rows]>
        (<["rows_after_cleansing" := SInt (len df)]>
        (<["rows_inserted" := SInt inserted_count]>
        (<["cleansing_stats" := SDict cleansing_stats]>
        (<["batch_id" := SStr batch_id]> ∅))))).

(** [get_csv_row_count]: what opening or reading the file raises goes on
    to the caller. *)
Definition get_csv_row_count (filepath : string) : result Z :=
  match files env filepath with
  | Raise e => Raise e
  | Return text => Return (len (readlines text) - 1)
  end.

End WithEnv.

End Loader.

(** ** Several calls on one loader, and what a run is compared with *)

Module Session.
Import Py Loader.

(** One ingestion call. *)
Inductive Call : Type :=
  | LoadChunk (filepath : string) (start_row end_row : Z) (batch_id : string)
  | LoadFull (filepath : string) (batch_id : option string).

Definition run_call (env : Env) (c : Call) : M (gmap string StatValue) :=
  match c with
  | LoadChunk filepath start_row end_row batch_id =>
      load_csv_chunk env filepath start_row end_row batch_id
  | LoadFull filepath batch_id => load_full_csv env filepath batch_id
  end.

(** A caller that makes the calls one after the other on the same loader
    and notes every outcome. *)
Fixpoint run_calls (env : Env) (calls : list Call) (st : State)
  : list (result (gmap string StatValue)) * State :=
  match calls with
  | [] => ([], st)
  | c :: rest =>
      let '(r, st1) := run_call env c st in
      let '(rs, st2) := run_calls env rest st1 in
      (r :: rs, st2)
  end.

(** The [pd.read_csv] of a call. *)
Definition csv_read (env : Env) (c : Call) : result Frame :=
  match c with
  | LoadChunk filepath start_row end_row _ =>
      read_csv env filepath (in_range 1 (start_row + 1))
        (Some (end_row - start_row))
  | LoadFull filepath _ => read_csv env filepath (λ _, false) None
  end.

(** The frame a call gets to cleanse: the rows of the frame it reads, when
    the read returns and the frame has the columns [ts] and [device];
    otherwise the exception of the read, or the [KeyError] of the missing
    column. *)
Definition frame_read (env : Env) (c : Call) : result DataFrame :=
  match csv_read env c with
  | Return df => subset_columns df
  | Raise e => Raise e
  end.

(** The cleaner of the loader at work on the rows of a frame. *)
Definition cleanse_rows (df : DataFrame) : M DataFrame := λ st,
  (Return (Cleaner.cleanse (cleaner (self st)) df).1,
   with_cleaner (Cleaner.cleanse (cleaner (self st)) df).2 st).

(** The clock readings [df.apply] makes on a frame: one for every row, and
    one on a frame without rows. *)
Definition clock_readings (df : DataFrame) : nat :=
  match df with
  | [] => 1
  | _ => length df
  end.

(** The rows a cleaner drops from one frame, per counter. *)
Definition frame_drops (df : DataFrame) : Cleaner.CleansingStats :=
  {| Cleaner.duplicates_removed := len df - len (Cleaner.drop_duplicates df);
     Cleaner.missing_values_dropped :=
       len (Cleaner.drop_duplicates df)
       - len (Cleaner.dropna (Cleaner.drop_duplicates df)) |}.

Definition stats_add (a b : Cleaner.CleansingStats) : Cleaner.CleansingStats :=
  {| Cleaner.duplicates_removed :=
       Cleaner.duplicates_removed a + Cleaner.duplicates_removed b;
     Cleaner.missing_values_dropped :=
       Cleaner.missing_values_dropped a + Cleaner.missing_values_dropped b |}.

(** The drops of one call taken alone: those of the frame it gets to
    cleanse, none when it gets none. *)
Definition call_drops (env : Env) (c : Call) : Cleaner.CleansingStats :=
  match frame_read env c with
  | Return df => frame_drops df
  | Raise _ => Cleaner.stats Cleaner.__init__
  end.

(** The drops of a sequence of calls, added up. *)
Fixpoint total_drops (env : Env) (calls : list Call) : Cleaner.CleansingStats :=
  match calls with
  | [] => Cleaner.stats Cleaner.__init__
  | c :: rest => stats_add (call_drops env c) (total_drops env rest)
  end.

(** The documents of a frame whose rows are stamped one after the other,
    the first one at the [k]-th reading of the clock. *)
Fixpoint stamp (env : Env) (mk : Z → Metadata) (k : nat) (df : DataFrame)
  : list Document :=
  match df with
  | [] => []
  | r :: rest =>
      {| row := r; _metadata := mk (now env k) |} :: stamp env mk (S k) rest
  end.

(** The consecutive sub-batches the write loop sends. *)
Definition sub_batches (records : list Document) (batch_size : Z)
  : list (list Document) :=
  match range 0 (len records) batch_size with
  | Return idxs => (λ i, slice records i (i + batch_size)) <$> idxs
  | Raise _ => []
  end.

(** What the store reports as written for the [k]-th bulk write. *)
Definition reported (env : Env) (k : nat) (batch : list Document) : Z :=
  len (accepted (rejects env k) 0 batch).

(** The reports and the stored documents of consecutive bulk writes, the
    first of them being the [k]-th. *)
Fixpoint reported_total (env : Env) (k : nat)
    (batches : list (list Document)) : Z :=
  match batches with
  | [] => 0
  | b :: rest => reported env k b + reported_total env (S k) rest
  end.

Fixpoint written (env : Env) (k : nat) (batches : list (list Document))
  : list Document :=
  match batches with
  | [] => []
  | b :: rest => accepted (rejects env k) 0 b ++ written env (S k) rest
  end.

(** What the write loop may change between two states: bulk writes are
    counted and documents taken from [records] are appended, in order. *)
Definition store_only (records : list Document) (st st' : State) : Prop :=
  self st' = self st ∧ now_calls st' = now_calls st ∧
  (insert_calls st ≤ insert_calls st')%nat ∧
  ∃ new, collection st' = collection st ++ new ∧ ∀ d, d ∈ new → d ∈ records.

(** The [_metadata] and the returned dict of the two load methods. *)
Definition chunk_metadata (batch_id : string) (start_row end_row : Z)
    (t : Z) : Metadata :=
  {| ingested_at := t; batch_id := batch_id;
     source_rows := Some (pretty start_row +:+ "-" +:+ pretty end_row) |}.

Definition chunk_stats (nrows : Z) (batch_id : string)
    (rows_after_cleansing inserted_count : Z)
    (cleansing_stats : Cleaner.CleansingStats) : gmap string StatValue :=
  <["rows_read" := SInt nrows]>
  (<["rows_after_cleansing" := SInt rows_after_cleansing]>
  (<["rows_inserted" := SInt inserted_count]>
  (<["cleansing_stats" := SDict cleansing_stats]>
  (<["batch_id" := SStr batch_id]> ∅)))).

Definition full_metadata (batch_id : string) (t : Z) : Metadata :=
  {| ingested_at := t; batch_id := batch_id; source_rows := None |}.

Definition full_stats (total_rows : Z) (batch_id : string)
    (rows_after_cleansing inserted_count : Z)
    (cleansing_stats : Cleaner.CleansingStats) : gmap string StatValue :=
  <["total_rows_read" := SInt total_rows]>
  (<["rows_after_cleansing" := SInt rows_after_cleansing]>
  (<["rows_inserted" := SInt inserted_count]>
  (<["cleansing_stats" := SDict cleansing_stats]>
  (<["batch_id" := SStr batch_id]> ∅)))).

(** The part the two load methods have in common once the frame is known
    to have the two columns, from the cleansing to the returned dict: [mk] builds the [_metadata] of a row from the clock
    reading, [finish] the dict from the three numbers of the run. *)
Definition pipeline (env : Env) (mk : Z → Metadata)
    (finish : Z → Z → Cleaner.CleansingStats → gmap string StatValue)
    (df : DataFrame) : M (gmap string StatValue) :=
  df ← cleanse_rows df;
  records ← apply_rows (λ _, t ← datetime_now env; mret (mk t)) df;
  inserted_count ← insert_all env records;
  cleansing_stats ← snapshot;
  mret (finish (len df) inserted_count cleansing_stats).

End Session.

(** ** Concrete runs used by the examples *)

Module Scenario.
Import Py Loader.

Definition reading (t : Z) (d : string) (v : Z) : Row :=
  {| ts := Some (VNum t); device := Some (VStr d);
     fields := [("value", Some (VNum v))] |}.

(** Ten data rows: row 2 repeats the key of row 1, row 5 the key of row 4,
    and row 8 has no [device]. *)
Definition ten_rows : list Row :=
  [ reading 1 "A" 10; reading 1 "A" 11; reading 2 "A" 12;
    reading 3 "B" 13; reading 3 "B" 14; reading 4 "B" 15;
    reading 5 "C" 16;
    {| ts := Some (VNum 6); device := None;
       fields := [("value", Some (VNum 17))] |};
    reading 7 "C" 18; reading 8 "D" 19 ].

Definition ten_rows_text : string :=
  "ts,device,value
1,A,10
1,A,11
2,A,12
3,B,13
3,B,14
4,B,15
5,C,16
6,,17
7,C,18
8,D,19
".

Definition header_line : string := "ts,device,value".

Definition ten_lines : list string :=
  [ "1,A,10"; "1,A,11"; "2,A,12"; "3,B,13"; "3,B,14";
    "4,B,15"; "5,C,16"; "6,,17"; "7,C,18"; "8,D,19" ].

(** The row each data line of [sensors.csv] stands for. *)
Definition row_of_line (l : string) : Row :=
  default empty_row
    ((list_to_map (zip ten_lines ten_rows) : gmap string Row) !! l).

(** A world with the one file [sensors.csv], a parser that gives a line the
    same row in every read, a clock that advances by one at every reading,
    and a store that accepts every document. *)
Definition env10 : Env :=
  {| files := λ p, if decide (p = "sensors.csv") then Return ten_rows_text
                   else Raise FileNotFoundError;
     csv_lines := λ p,
       if decide (p = "sensors.csv")
       then Return (Some header_line :: (Some <$> ten_lines))
       else Raise FileNotFoundError;
     header_names := λ h,
       if decide (h = header_line) then ["ts"; "device"; "value"] else [];
     parse_error := λ _ _, None;
     parse_row := λ _ _ l, row_of_line l;
     now := λ k, Z.of_nat k;
     strftime := λ _, "20240101_000000";
     reachable := λ _, true;
     rejects := λ _ _, false |}.

(** The same world with a store that rejects the documents at positions 1,
    2 and 4 of the first bulk write. *)
Definition env10_rejecting : Env :=
  {| files := files env10; csv_lines := csv_lines env10;
     header_names := header_names env10;
     parse_error := parse_error env10; parse_row := parse_row env10;
     now := now env10; strftime := strftime env10;
     reachable := λ _, true;
     rejects := λ k i, bool_decide (k = 0%nat ∧ i ∈ [1; 2; 4]%nat) |}.

(** A new loader in a world where nothing has happened yet. *)
Definition start (batch_size : Z) : State :=
  {| self := __init__ batch_size; now_calls := 0;
     insert_calls := 0; collection := [] |}.

(** A world in which every path names a file with the given text, for
    the counting of lines. *)
Definition env_text (text : string) : Env :=
  {| files := λ _, Return text; csv_lines := λ _, Raise EmptyDataError;
     header_names := λ _, []; parse_error := λ _ _, None;
     parse_row := λ _ _ _, empty_row;
     now := λ k, Z.of_nat k; strftime := λ _, "20240101_000000";
     reachable := λ _, true; rejects := λ _ _, false |}.

(** The value of a key in the statistics a call returned. *)
Definition stat (r : result (gmap string StatValue)) (key : string)
  : option StatValue :=
  match r with
  | Return stats => stats !! key
  | Raise _ => None
  end.

(** Two full loads of the same file on one loader. *)
Definition two_full_loads : list Session.Call :=
  [ Session.LoadFull "sensors.csv" None;
    Session.LoadFull "sensors.csv" (Some "second") ].

End Scenario.

(** ** Further notions the properties of the cleaner are stated with *)

Module CleanerNotions.

(** Both cells of a key are present. *)
Definition key_present (k : Cell * Cell) : Prop := is_Some k.1 ∧ is_Some k.2.

#[global] Instance key_present_dec k : Decision (key_present k).
Proof. unfold key_present. apply _. Defined.

(** The keys of a frame, row by row. *)
Definition keys (df : DataFrame) : list (Cell * Cell) :=
  Cleaner.subset_key <$> df.

(** A frame that [cleanse] has nothing to do on. *)
Definition clean (df : DataFrame) : Prop :=
  NoDup (keys df) ∧ Forall Cleaner.notna df.

End CleanerNotions.

(** ** Further notions the properties of the loader are stated with *)

Module LoaderNotions.
Import Py Loader Session.

(** [batch_id or ...] takes the right-hand side: [None] or the empty
    string. *)
Definition falsy (batch_id : option string) : bool :=
  match batch_id with
  | Some s => bool_decide (s = EmptyString)
  | None => true
  end.

(** The [batch_id] a full load works with, for a call made in state
    [st]. *)
Definition full_batch_id (env : Env) (batch_id : option string) (st : State)
  : string :=
  match batch_id with
  | Some s =>
      if decide (s = EmptyString)
      then "full_" +:+ strftime env (now env (now_calls st))
      else s
  | None => "full_" +:+ strftime env (now env (now_calls st))
  end.

(** The clock readings a full load spends on its [batch_id]. *)
Definition id_readings (batch_id : option string) : nat :=
  if falsy batch_id then 1 else 0.

(** Componentwise order of the counters. *)
Definition stats_le (a b : Cleaner.CleansingStats) : Prop :=
  Cleaner.duplicates_removed a ≤ Cleaner.duplicates_removed b ∧
  Cleaner.missing_values_dropped a ≤ Cleaner.missing_values_dropped b.

(** The number of sub-batches of [n] records for a positive
    [batch_size]. *)
Definition n_batches (n batch_size : Z) : nat :=
  Z.to_nat ((n + batch_size - 1) `div` batch_size).

End LoaderNotions.

(** ** Files written with another line terminator *)

Module TextNotions.
Import Py.

(** The three line terminators of universal newlines. *)
Definition eol_LF : string := String LF EmptyString.
Definition eol_CRLF : string := String CR (String LF EmptyString).
Definition eol_CR : string := String CR EmptyString.

(** [write_lines] with the terminator [eol] in place of ["\n"]. *)
Fixpoint write_lines_eol (eol : string) (first : string) (rest : list string)
    (trailing : bool) : string :=
  match rest with
  | [] => first +:+ (if trailing then eol else EmptyString)
  | l :: rest' => first +:+ eol +:+ write_lines_eol eol l rest' trailing
  end.

End TextNotions.

(** ** [BatchLoader.__init__]: the connection settings *)

Module Connection.

(** [a or b] on strings that may be [None]. *)
Definition py_or (a : option string) (b : string) : string :=
  match a with
  | Some s => if decide (s = EmptyString) then b else s
  | None => b
  end.

(** [os.getenv(key, default)] *)
Definition getenv (environ : gmap string string) (key fallback : string)
  : string :=
  default fallback (environ !! key).

Record Settings : Type := mkSettings {
  mongo_uri : string;
  database : string;
  collection_name : string;
  batch_size : Z
}.

(** Lines 24 to 27 of [BatchLoader.__init__], with the defaults of its
    signature when [collection] and [batch_size] are [None] here. *)
Definition settings (environ : gmap string string)
    (mongo_uri database collection : option string) (batch_size : option Z)
  : Settings :=
  {| mongo_uri :=
       py_or mongo_uri (getenv environ "MONGO_URI" "mongodb://localhost:27017/");
     database := py_or database (getenv environ "MONGO_DB" "sensor_data");
     collection_name := default "sensor_readings" collection;
     batch_size := default 1000 batch_size |}.

End Connection.

(** ** The script's entry point *)

Module Entry.
Import Py Loader.

(** An index as [create_index] is given it: the fields and their
    directions. *)
Definition IndexSpec : Type := list (string * Z).

(** The calls of pymongo the script makes besides the bulk writes, each
    with the exception it raises, if any: [MongoClient(uri)] (which does
    not connect yet, and refuses a malformed URI), and [create_index]. *)
Record Mongo : Type := mkMongo {
  MongoClient : string → option Exn;
  create_index : IndexSpec → option Exn
}.

(** [BatchLoader.create_indexes]: three calls of [create_index], in this
    order; a call that raises ends the method.  [indexes] are the calls
    the store has answered so far. *)
Definition create_indexes (mongo : Mongo) (indexes : list IndexSpec)
  : result unit * list IndexSpec :=
  match create_index mongo [("device", 1)] with
  | Some e => (Raise e, indexes)
  | None =>
      let indexes := indexes ++ [[("device", 1)]] in
      match create_index mongo [("ts", 1)] with
      | Some e => (Raise e, indexes)
      | None =>
          let indexes := indexes ++ [[("ts", 1)]] in
          match create_index mongo [("device", 1); ("ts", -1)] with
          | Some e => (Raise e, indexes)
          | None => (Return (), indexes ++ [[("device", 1); ("ts", -1)]])
          end
      end
  end.

(** What the script prints. *)
Inductive Output : Type :=
  | PrintArgv (argv : list string)
  | PrintUsage
  | PrintFinal (stats : gmap string StatValue).

(** How the script ends: [sys.exit(n)] or the end of the script (status
    0), or an exception nobody catches. *)
Inductive Exit : Type :=
  | ExitCode (n : Z)
  | Uncaught (e : Exn).

Inductive Client : Type := NotCreated | Open | Closed.

(** The process: the loader and the store, the [create_index] calls the
    store has answered, the client, and the standard output. *)
Record Process : Type := mkProcess {
  state : State;
  indexes : list IndexSpec;
  client : Client;
  stdout : list Output
}.

(** The block under [if __name__ == '__main__'].  [BatchLoader()] takes
    its settings from the environment variables [environ] and the defaults
    of [__init__]. *)
Definition main (env : Env) (mongo : Mongo) (environ : gmap string string)
    (argv : list string) (p : Process) : Exit * Process :=
  let out := stdout p ++ [PrintArgv argv] in
  match argv with
  | _ :: filepath :: _ =>
      let s := Connection.settings environ None None None None in
      match MongoClient mongo (Connection.mongo_uri s) with
      | Some e =>
          (Uncaught e,
           {| state := state p; indexes := indexes p; client := client p;
              stdout := out |})
      | None =>
          let st := {| self := __init__ (Connection.batch_size s);
                       now_calls := now_calls (state p);
                       insert_calls := insert_calls (state p);
                       collection := collection (state p) |} in
          match create_indexes mongo (indexes p) with
          | (Raise e, idx) =>
              (Uncaught e,
               {| state := st; indexes := idx; client := Open;
                  stdout := out |})
          | (Return _, idx) =>
              match load_full_csv env filepath None st with
              | (Return stats, st') =>
                  (ExitCode 0,
                   {| state := st'; indexes := idx; client := Closed;
                      stdout := out ++ [PrintFinal stats] |})
              | (Raise e, st') =>
                  (Uncaught e,
                   {| state := st'; indexes := idx; client := Open;
                      stdout := out |})
              end
          end
      end
  | _ =>
      (ExitCode 1,
       {| state := state p; indexes := indexes p; client := client p;
          stdout := out ++ [PrintUsage] |})
  end.

End Entry.

(** ** Further concrete runs *)

Module Scenario2.
Import Py Loader Session Entry Scenario.

(** The world of [env10] with a store that answers the first bulk write
    only. *)
Definition env10_down : Env :=
  {| files := files env10; csv_lines := csv_lines env10;
     header_names := header_names env10;
     parse_error := parse_error env10; parse_row := parse_row env10;
     now := now env10; strftime := strftime env10;
     reachable := λ k, bool_decide (k = 0%nat);
     rejects := λ _ _, false |}.

(** The world of [env10] with two more files: [gaps.csv], three data
    lines of [sensors.csv] with a blank line after the first of them, and
    [plain.csv], a file without a [device] column. *)
Definition env_more : Env :=
  {| files := files env10;
     csv_lines := λ p,
       if decide (p = "gaps.csv")
       then Return [Some header_line; Some "1,A,10"; None;
                    Some "2,A,12"; Some "3,B,13"]
       else if decide (p = "plain.csv")
       then Return [Some "ts,value"; Some "1,10"]
       else csv_lines env10 p;
     header_names := λ h,
       if decide (h = "ts,value") then ["ts"; "value"]
       else header_names env10 h;
     parse_error := parse_error env10; parse_row := parse_row env10;
     now := now env10; strftime := strftime env10;
     reachable := λ _, true;
     rejects := λ _ _, false |}.

(** A pymongo that raises nothing. *)
Definition mongo_up : Mongo :=
  {| MongoClient := λ _, None; create_index := λ _, None |}.

(** Seven documents to cut into sub-batches. *)
Definition seven_records : list Document :=
  stamp env10 (full_metadata "b") 0
    (Cleaner.cleanse Cleaner.__init__ ten_rows).1.

(** A process that has not started anything. *)
Definition idle : Process :=
  {| state := start 1000; indexes := []; client := NotCreated;
     stdout := [] |}.

End Scenario2.

(** * Properties *)

(** ** The cleaner *)

Module CleanerFacts.
Import Cleaner.

Lemma drop_duplicates_from_length seen df :
  (length (drop_duplicates_from seen df) <= length df)%nat.
Proof.
  revert seen. induction df as [|r rest IH]; intros seen; simpl; [lia|].
  case_decide; simpl.
  - specialize (IH seen). lia.
  - specialize (IH (subset_key r :: seen)). lia.
Qed.

Lemma dropna_length df : (length (dropna df) <= length df)%nat.
Proof. apply length_filter. Qed.

(** What [drop_duplicates_from] keeps has pairwise different keys, none of
    them among [seen]. *)
Lemma drop_duplicates_from_keys seen df :
  NoDup (subset_key <$> drop_duplicates_from seen df) ∧
  ∀ k, k ∈ subset_key <$> drop_duplicates_from seen df → k ∉ seen.
Proof.
  revert seen. induction df as [|r rest IH]; intros seen; simpl.
  - split; [constructor|]. intros k Hk. by apply elem_of_nil in Hk.
  - case_decide as Hin; [apply IH|].
    destruct (IH (subset_key r :: seen)) as [Hnd Hfresh].
    rewrite fmap_cons. split.
    + constructor; [|done]. intros Hk. apply Hfresh in Hk.
      apply Hk. by left.
    + intros k [->|Hk]%elem_of_cons; [done|].
      apply Hfresh in Hk. intros Hs. apply Hk. by right.
Qed.

(** A frame whose keys are pairwise different and fresh is left alone. *)
Lemma drop_duplicates_from_id seen df :
  NoDup (subset_key <$> df) →
  (∀ k, k ∈ subset_key <$> df → k ∉ seen) →
  drop_duplicates_from seen df = df.
Proof.
  revert seen. induction df as [|r rest IH]; intros seen Hnd Hfresh; [done|].
  simpl. rewrite fmap_cons in Hnd, Hfresh.
  apply NoDup_cons in Hnd as [Hr Hnd].
  case_decide as Hin.
  - exfalso. apply (Hfresh (subset_key r)); [by left|done].
  - f_equal. apply IH; [done|].
    intros k Hk [->|Hs]%elem_of_cons; [done|].
    apply (Hfresh k); [by right|done].
Qed.

Lemma dropna_keys_NoDup df :
  NoDup (subset_key <$> df) → NoDup (subset_key <$> dropna df).
Proof.
  intros Hnd. apply (sublist_NoDup _ (subset_key <$> df)); [exact Hnd|].
  apply fmap_sublist. unfold dropna. apply sublist_filter.
Qed.

Lemma dropna_idemp df : dropna (dropna df) = dropna df.
Proof.
  unfold dropna. rewrite list_filter_filter. apply list_filter_iff.
  intros r. tauto.
Qed.

Lemma cleanse_frame self df :
  (cleanse self df).1 = dropna (drop_duplicates df).
Proof. reflexivity. Qed.

Lemma cleanse_stats self df :
  stats (cleanse self df).2 =
  {| duplicates_removed :=
       duplicates_removed (stats self) + (len df - len (drop_duplicates df));
     missing_values_dropped :=
       missing_values_dropped (stats self)
       + (len (drop_duplicates df) - len (dropna (drop_duplicates df))) |}.
Proof. reflexivity. Qed.

(** The frame returned by [cleanse] is a fixed point of both filters. *)
Lemma cleanse_fixed self df :
  drop_duplicates (cleanse self df).1 = (cleanse self df).1 ∧
  dropna (cleanse self df).1 = (cleanse self df).1.
Proof.
  rewrite cleanse_frame. split; [|apply dropna_idemp].
  apply drop_duplicates_from_id.
  - apply dropna_keys_NoDup. apply (drop_duplicates_from_keys [] df).
  - intros k _ Hk. by apply elem_of_nil in Hk.
Qed.


(** C5: [cleanse] never returns more rows than it was given, and the two
    counters together grow by exactly the number of rows it dropped: the
    duplicates counter by the rows [drop_duplicates] removed, the missing
    values counter by the rows [dropna] removed from what was left, so that
    no dropped row is counted twice and none is left out. *)
Theorem cleanse_accounting (self : DataCleaner) (df : DataFrame) :
  len (cleanse self df).1 ≤ len df ∧
  dropped_total (stats (cleanse self df).2) - dropped_total (stats self)
    = len df - len (cleanse self df).1 ∧
  0 ≤ duplicates_removed (stats (cleanse self df).2)
        - duplicates_removed (stats self) ∧
  0 ≤ missing_values_dropped (stats (cleanse self df).2)
        - missing_values_dropped (stats self).
Proof.
  rewrite cleanse_stats, cleanse_frame. unfold dropped_total, len. simpl.
  pose proof (drop_duplicates_from_length [] df) as Hd.
  pose proof (dropna_length (drop_duplicates df)) as Hn.
  fold (drop_duplicates df) in Hd. lia.
Qed.

(** C6: cleansing is idempotent.  Cleansing the output of [cleanse] again,
    with the same cleaner, returns that output unchanged, hence drops no
    row, and leaves both counters as they were. *)
Theorem cleanse_idempotent (self : DataCleaner) (df : DataFrame) :
  let out := (cleanse self df).1 in
  let self' := (cleanse self df).2 in
  (cleanse self' out).1 = out ∧
  len out - len (cleanse self' out).1 = 0 ∧
  duplicates_removed (stats (cleanse self' out).2)
    = duplicates_removed (stats self') ∧
  missing_values_dropped (stats (cleanse self' out).2)
    = missing_values_dropped (stats self').
Proof.
  intros out self'.
  destruct (cleanse_fixed self df) as [Hd Hn]. fold out in Hd, Hn.
  assert (Hout : (cleanse self' out).1 = out).
  { rewrite cleanse_frame. by rewrite Hd, Hn. }
  rewrite Hout, cleanse_stats, Hd, Hn. simpl. repeat split; lia.
Qed.

End CleanerFacts.

(** ** Counting the rows of a file *)

Module RowCountFacts.
Import Py Loader.

Lemma append_nil_l (b : string) : EmptyString +:+ b = b.
Proof. reflexivity. Qed.

Lemma append_cons_l (x : Ascii.ascii) (a b : string) :
  String x a +:+ b = String x (a +:+ b).
Proof. reflexivity. Qed.

Lemma append_String_assoc (a : string) (c : Ascii.ascii) (b : string) :
  (a +:+ String c EmptyString) +:+ b = a +:+ String c b.
Proof.
  induction a as [|x a IH]; [done|].
  rewrite !append_cons_l. f_equal. exact IH.
Qed.

Lemma append_empty_r (a : string) : a +:+ EmptyString = a.
Proof.
  induction a as [|x a IH]; [done|]. rewrite append_cons_l. by f_equal.
Qed.

Lemma append_assoc (a b c : string) : (a +:+ b) +:+ c = a +:+ b +:+ c.
Proof.
  induction a as [|x a IH]; [done|]. rewrite !append_cons_l. by f_equal.
Qed.

(** Characters that end no line are added to the current line. *)
Lemma readlines_from_chars (l : string) : ∀ cur rest,
  no_newline l = true →
  readlines_from cur (l +:+ rest) = readlines_from (cur +:+ l) rest.
Proof.
  induction l as [|c l IH]; intros cur rest Hl.
  - by rewrite append_nil_l, append_empty_r.
  - simpl in Hl. apply andb_prop in Hl as [Hc Hl].
    apply andb_prop in Hc as [Hlf Hcr].
    apply bool_decide_eq_true in Hlf, Hcr.
    rewrite append_cons_l. simpl.
    rewrite !decide_False by done.
    rewrite IH by done. by rewrite append_String_assoc.
Qed.

(** A line ended by ["\n"] is handed over and the scan starts afresh. *)
Lemma readlines_from_line (l : string) (cur rest : string) :
  no_newline l = true →
  readlines_from cur (l +:+ String LF rest)
  = (cur +:+ l +:+ String LF EmptyString) :: readlines_from EmptyString rest.
Proof.
  intros Hl. rewrite readlines_from_chars by done. simpl.
  by rewrite append_assoc.
Qed.

(** A file of [1 + length rest] lines is read as that many lines, with or
    without a final terminator, when the last line is not empty. *)
Lemma readlines_write_lines (rest : list string) : ∀ first trailing,
  Forall (λ l, no_newline l = true ∧ l ≠ EmptyString) (first :: rest) →
  length (readlines (write_lines first rest trailing)) = S (length rest).
Proof.
  unfold readlines.
  induction rest as [|l rest IH]; intros first trailing Hall; simpl.
  - apply Forall_cons in Hall as [[Hf Hne] _].
    destruct trailing.
    + by rewrite readlines_from_line.
    + rewrite append_empty_r.
      rewrite <- (append_empty_r first) at 1.
      rewrite readlines_from_chars by done. simpl.
      by rewrite decide_False.
  - apply Forall_cons in Hall as [[Hf Hne] Hall].
    rewrite append_cons_l, append_nil_l.
    rewrite readlines_from_line by done. simpl. f_equal. by apply IH.
Qed.

(** C8: on a file made of a header line and [n] data lines, none of them
    empty or holding a line terminator, [get_csv_row_count] returns [n]
    whether or not the last line ends with a newline; for 100 data lines
    it returns 100. *)
Theorem row_count_data_rows (env : Env) (filepath header : string)
    (rows : list string) (trailing : bool) :
  Forall (λ l, no_newline l = true ∧ l ≠ EmptyString) (header :: rows) →
  files env filepath = Return (write_lines header rows trailing) →
  get_csv_row_count env filepath = Return (len rows) ∧
  (length rows = 100%nat → get_csv_row_count env filepath = Return 100).
Proof.
  intros Hall Hfile.
  assert (Hcount : get_csv_row_count env filepath = Return (len rows)).
  { unfold get_csv_row_count. rewrite Hfile. f_equal. unfold len.
    rewrite readlines_write_lines by done. lia. }
  split; [done|]. intros Hn. rewrite Hcount. unfold len. rewrite Hn. done.
Qed.

(** C10: [get_csv_row_count] is the number of lines of the file minus one,
    whatever the file holds: 0 for a file with the header line only, and
    -1 for a file with no line at all. *)
Theorem row_count_lines_minus_one (env : Env) (filepath text : string) :
  files env filepath = Return text →
  get_csv_row_count env filepath = Return (len (readlines text) - 1) ∧
  (length (readlines text) = 1%nat →
     get_csv_row_count env filepath = Return 0) ∧
  (∀ header trailing,
     no_newline header = true → header ≠ EmptyString →
     text = write_lines header [] trailing →
     get_csv_row_count env filepath = Return 0) ∧
  (text = EmptyString → get_csv_row_count env filepath = Return (-1)).
Proof.
  intros Hfile. unfold get_csv_row_count. rewrite Hfile.
  split; [done|]. split; [|split].
  - intros H1. unfold len. by rewrite H1.
  - intros header trailing Hh Hne ->. unfold len.
    rewrite (readlines_write_lines [] header trailing); [done|].
    by repeat constructor.
  - by intros ->.
Qed.

End RowCountFacts.

(** ** The loader *)

Module LoaderFacts.
Import Py Loader Session.

(** *** Running a method body step by step *)

Lemma bind_Return {A B} (m : M A) (f : A → M B) st a st1 :
  m st = (Return a, st1) → (m ≫= f) st = f a st1.
Proof. intros H. unfold mbind, M_bind. by rewrite H. Qed.

Lemma bind_Raise {A B} (m : M A) (f : A → M B) st e st1 :
  m st = (Raise e, st1) → (m ≫= f) st = (Raise e, st1).
Proof. intros H. unfold mbind, M_bind. by rewrite H. Qed.

(** *** Reading a row range *)

Lemma skip_lines_ext {A} (f g : Z → bool) (lines : list A) : ∀ lineno,
  (∀ i, lineno ≤ i → f i = g i) →
  skip_lines f lineno lines = skip_lines g lineno lines.
Proof.
  induction lines as [|l lines IH]; intros lineno Hfg; simpl; [done|].
  rewrite (Hfg lineno) by lia.
  rewrite (IH (lineno + 1)) by (intros i Hi; apply Hfg; lia). done.
Qed.

Lemma skip_lines_none {A} (lines : list A) : ∀ lineno,
  skip_lines (λ _, false) lineno lines = lines.
Proof. induction lines as [|l lines IH]; intros lineno; simpl; by f_equal. Qed.

(** Skipping the lines [1 .. start_row] drops the [start_row] lines that
    follow line 0. *)
Lemma skip_lines_range {A} (s : Z) (lines : list A) : ∀ lineno,
  1 ≤ lineno →
  skip_lines (in_range 1 (s + 1)) lineno lines
  = drop (Z.to_nat (s + 1 - lineno)) lines.
Proof.
  induction lines as [|l lines IH]; intros lineno Hl; simpl.
  - by rewrite drop_nil.
  - rewrite IH by lia. unfold in_range. case_bool_decide as Hin.
    + replace (Z.to_nat (s + 1 - lineno))
        with (S (Z.to_nat (s + 1 - (lineno + 1)))) by lia.
      done.
    + replace (Z.to_nat (s + 1 - lineno)) with 0%nat by lia.
      replace (Z.to_nat (s + 1 - (lineno + 1))) with 0%nat by lia.
      done.
Qed.

(** Line 0 is in no [range(1, ...)]. *)
Lemma skip_lines_header {A} (s : Z) (h : A) (rest : list A) :
  skip_lines (in_range 1 (s + 1)) 0 (h :: rest) = h :: drop (Z.to_nat s) rest.
Proof.
  cbn [skip_lines]. unfold in_range at 1.
  rewrite bool_decide_eq_false_2 by lia.
  rewrite skip_lines_range by lia. do 2 f_equal. lia.
Qed.



(** The read of a row range on a file that begins with its header line:
    the [start_row] lines after the header go, whatever they hold, and of
    the lines left the first [end_row - start_row] that are not blank are
    parsed. *)
Lemma read_csv_range env filepath header rest (start_row end_row : Z) :
  csv_lines env filepath = Return (Some header :: rest) →
  start_row ≤ end_row →
  read_csv env filepath (in_range 1 (start_row + 1))
    (Some (end_row - start_row))
  = parse_frame env header
      (take (Z.to_nat (end_row - start_row))
         (omap id (drop (Z.to_nat start_row) rest))).
Proof.
  intros Hf Hle. unfold read_csv. rewrite Hf, skip_lines_header.
  cbn [omap list_omap id]. by rewrite decide_False by lia.
Qed.

Lemma read_csv_full env filepath header rest :
  csv_lines env filepath = Return (Some header :: rest) →
  read_csv env filepath (λ _, false) None
  = parse_frame env header (omap id rest).
Proof.
  intros Hf. unfold read_csv. by rewrite Hf, skip_lines_none.
Qed.

Lemma parse_frame_ok env header lines :
  parse_error env header lines = None →
  parse_frame env header lines
  = Return {| columns := header_names env header;
              data := parse_row env header lines <$> lines |}.
Proof.
  intros He. unfold parse_frame. destruct lines; [done|]. by rewrite He.
Qed.

Lemma parse_frame_Return env header lines f :
  parse_frame env header lines = Return f →
  f = {| columns := header_names env header;
         data := parse_row env header lines <$> lines |}.
Proof.
  unfold parse_frame. destruct lines as [|l lines]; [by intros [= <-]|].
  destruct (parse_error env header (l :: lines)); [done|]. by intros [= <-].
Qed.

Lemma subset_columns_Return df rows :
  subset_columns df = Return rows →
  rows = data df ∧ "ts" ∈ columns df ∧ "device" ∈ columns df.
Proof. unfold subset_columns. case_decide; [|done]. by intros [= <-]. Qed.

Lemma subset_columns_Raise df e :
  subset_columns df = Raise e →
  e = KeyError ∧ ¬ ("ts" ∈ columns df ∧ "device" ∈ columns df).
Proof. unfold subset_columns. case_decide; [done|]. by intros [= <-]. Qed.

(** The frame a call gets to cleanse, from what its read returns. *)
Lemma frame_read_Return env c rows :
  frame_read env c = Return rows ↔
  ∃ df, csv_read env c = Return df ∧ rows = data df ∧
        "ts" ∈ columns df ∧ "device" ∈ columns df.
Proof.
  unfold frame_read. split.
  - destruct (csv_read env c) as [df|e]; [|done].
    intros H%subset_columns_Return. by exists df.
  - intros (df & -> & -> & Hk). unfold subset_columns. by rewrite decide_True.
Qed.

Lemma frame_read_Raise env c e :
  frame_read env c = Raise e ↔
  csv_read env c = Raise e ∨
  (e = KeyError ∧
   ∃ df, csv_read env c = Return df ∧
         ¬ ("ts" ∈ columns df ∧ "device" ∈ columns df)).
Proof.
  unfold frame_read. split.
  - destruct (csv_read env c) as [df|e0]; [|intros [= <-]; by left].
    intros [-> H]%subset_columns_Raise. right. split; [done|]. by exists df.
  - intros [->|(-> & df & -> & Hk)]; [done|].
    unfold subset_columns. by rewrite decide_False.
Qed.

(** *** The store *)

Lemma accepted_rejected_length rej docs : ∀ i,
  (length (accepted rej i docs) + length (rejected rej i docs)
   = length docs)%nat.
Proof.
  induction docs as [|d docs IH]; intros i; simpl; [done|].
  specialize (IH (S i)). destruct (rej i); simpl; lia.
Qed.

Lemma rejected_nil_accepted rej docs : ∀ i,
  rejected rej i docs = [] → accepted rej i docs = docs.
Proof.
  induction docs as [|d docs IH]; intros i; simpl; [done|].
  destruct (rej i); [done|]. intros H. f_equal. by apply IH.
Qed.

Lemma accepted_sublist rej docs : ∀ i, accepted rej i docs `sublist_of` docs.
Proof.
  induction docs as [|d docs IH]; intros i; simpl; [constructor|].
  destruct (rej i); [apply sublist_cons|apply sublist_skip]; apply IH.
Qed.

(** The count reported for a bulk write is short by the rejected
    documents. *)
Lemma reported_short env k batch :
  reported env k batch = len batch - len (rejected (rejects env k) 0 batch).
Proof.
  unfold reported, len.
  pose proof (accepted_rejected_length (rejects env k) batch 0). lia.
Qed.

(** One turn of the write loop: a rejected document is counted out, an
    unreachable store ends the call. *)
Lemma insert_batch_eq env records bs i st :
  insert_batch env records bs i st =
  match slice records i (i + bs) with
  | [] => (Raise TypeError, st)
  | batch =>
      if reachable env (insert_calls st)
      then (Return (reported env (insert_calls st) batch),
            with_store (S (insert_calls st))
              (collection st ++ accepted (rejects env (insert_calls st)) 0 batch)
              st)
      else (Raise ServerSelectionTimeoutError,
            with_store (S (insert_calls st)) (collection st) st)
  end.
Proof.
  unfold insert_batch, try_except_BulkWriteError, mbind, M_bind, insert_many.
  destruct (slice records i (i + bs)) as [|d batch] eqn:Hs; [done|].
  destruct (reachable env (insert_calls st)); [|done].
  destruct (rejected (rejects env (insert_calls st)) 0 (d :: batch)) eqn:Hr.
  - unfold mret, M_ret. simpl inserted_ids. unfold reported.
    rewrite (rejected_nil_accepted _ _ _ Hr).
    unfold len. simpl length. by rewrite length_seq.
  - done.
Qed.

(** *** The write loop *)

Lemma range_zero n : range 0 n 0 = Raise ValueError.
Proof. reflexivity. Qed.

Lemma range_pos n bs idxs :
  0 < bs → range 0 n bs = Return idxs → Forall (λ i, 0 ≤ i < n) idxs.
Proof.
  intros Hbs. unfold range.
  rewrite decide_False by lia. rewrite decide_True by lia.
  intros [= <-]. apply Forall_fmap, Forall_forall.
  intros k Hk%elem_of_seq. simpl.
  assert (Hdiv : bs * ((n - 0 + bs - 1) `div` bs) ≤ n - 0 + bs - 1)
    by (apply Z.mul_div_le; lia).
  destruct (decide (0 ≤ (n - 0 + bs - 1) `div` bs)); [nia|lia].
Qed.

Lemma range_neg n bs : bs < 0 → 0 ≤ n → range 0 n bs = Return [].
Proof.
  intros Hbs Hn. unfold range. rewrite !decide_False by lia.
  replace (Z.to_nat ((0 - n - bs - 1) `div` (- bs))) with 0%nat; [done|].
  destruct (decide (0 ≤ 0 - n - bs - 1)).
  - rewrite Z.div_small by lia. done.
  - assert ((0 - n - bs - 1) `div` (- bs) < 0)
      by (apply Z.div_lt_upper_bound; lia).
    lia.
Qed.

Lemma slice_nonempty {A} (l : list A) (i bs : Z) :
  0 ≤ i < len l → 0 < bs → slice l i (i + bs) ≠ [].
Proof.
  unfold len. intros Hi Hbs Hnil. apply (f_equal length) in Hnil.
  unfold slice in Hnil. rewrite length_take, length_drop in Hnil.
  unfold slice_bound, len in Hnil.
  rewrite !decide_False in Hnil by lia. simpl in Hnil. lia.
Qed.

Lemma slice_elem_of {A} (l : list A) (i j : Z) (x : A) :
  x ∈ slice l i j → x ∈ l.
Proof.
  unfold slice. intros Hx.
  eapply elem_of_sublist; [exact Hx|].
  etrans; [apply sublist_take|apply sublist_drop].
Qed.

Lemma store_only_refl records st : store_only records st st.
Proof.
  repeat split; [lia|]. exists []. split; [by rewrite app_nil_r|].
  intros d Hd. by apply elem_of_nil in Hd.
Qed.

Lemma store_only_trans records st1 st2 st3 :
  store_only records st1 st2 → store_only records st2 st3 →
  store_only records st1 st3.
Proof.
  intros (Hs1 & Hn1 & Hk1 & new1 & Hc1 & Hin1)
         (Hs2 & Hn2 & Hk2 & new2 & Hc2 & Hin2).
  repeat split; [congruence|congruence|lia|].
  exists (new1 ++ new2). split.
  - by rewrite Hc2, Hc1, app_assoc.
  - intros d [Hd|Hd]%elem_of_app; auto.
Qed.

Lemma insert_batch_frame env records bs i st r st' :
  insert_batch env records bs i st = (r, st') → store_only records st st'.
Proof.
  rewrite insert_batch_eq.
  destruct (slice records i (i + bs)) as [|d batch] eqn:Hs.
  { intros [= <- <-]. apply store_only_refl. }
  destruct (reachable env (insert_calls st)); intros [= <- <-].
  - repeat split; simpl; [lia|]. eexists. split; [done|].
    intros x Hx. apply (slice_elem_of records i (i + bs)). rewrite Hs.
    eapply elem_of_sublist;
      [exact Hx|exact (accepted_sublist _ (d :: batch) 0)].
  - repeat split; simpl; [lia|]. exists []. split; [by rewrite app_nil_r|].
    intros x Hx. by apply elem_of_nil in Hx.
Qed.

Lemma insert_loop_cons env records bs i idxs acc st :
  insert_loop env records bs (i :: idxs) acc st =
  match insert_batch env records bs i st with
  | (Return n, st1) => insert_loop env records bs idxs (acc + n) st1
  | (Raise e, st1) => (Raise e, st1)
  end.
Proof. reflexivity. Qed.

Lemma insert_loop_frame env records bs idxs : ∀ acc st r st',
  insert_loop env records bs idxs acc st = (r, st') →
  store_only records st st'.
Proof.
  induction idxs as [|i idxs IH]; intros acc st r st'.
  - intros [= <- <-]. apply store_only_refl.
  - rewrite insert_loop_cons.
    destruct (insert_batch env records bs i st) as [[n|e] st1] eqn:Hb.
    + intros Hl. eapply store_only_trans.
      * eapply insert_batch_frame, Hb.
      * eapply IH, Hl.
    + intros [= <- <-]. eapply insert_batch_frame, Hb.
Qed.

(** With a positive batch size the loop raises only because the store
    cannot be reached. *)
Lemma insert_loop_raise env records bs idxs :
  0 < bs → Forall (λ i, 0 ≤ i < len records) idxs →
  ∀ acc st e st',
    insert_loop env records bs idxs acc st = (Raise e, st') →
    e = ServerSelectionTimeoutError ∧ ∃ k, reachable env k = false.
Proof.
  intros Hbs. induction idxs as [|i idxs IH]; intros Hall acc st e st'.
  - intros [=].
  - apply Forall_cons in Hall as [Hi Hall].
    rewrite insert_loop_cons, insert_batch_eq.
    destruct (slice records i (i + bs)) as [|d batch] eqn:Hs.
    { by apply slice_nonempty in Hs. }
    destruct (reachable env (insert_calls st)) eqn:Hr.
    + by apply IH.
    + intros [= <- <-]. eauto.
Qed.

(** With a reachable store every sub-batch is sent, and the loop returns
    the sum of the counts the store reported. *)
Lemma insert_loop_ok env records bs idxs :
  0 < bs → Forall (λ i, 0 ≤ i < len records) idxs →
  ∀ acc st,
    (∀ k, (insert_calls st ≤ k < insert_calls st + length idxs)%nat →
          reachable env k = true) →
    insert_loop env records bs idxs acc st =
    (Return (acc + reported_total env (insert_calls st)
                     ((λ i, slice records i (i + bs)) <$> idxs)),
     with_store (insert_calls st + length idxs)
       (collection st ++ written env (insert_calls st)
                           ((λ i, slice records i (i + bs)) <$> idxs)) st).
Proof.
  intros Hbs. induction idxs as [|i idxs IH]; intros Hall acc st Hreach.
  - simpl. unfold mret, M_ret, with_store. destruct st; simpl.
    by rewrite Z.add_0_r, Nat.add_0_r, app_nil_r.
  - apply Forall_cons in Hall as [Hi Hall].
    rewrite insert_loop_cons, insert_batch_eq.
    destruct (slice records i (i + bs)) as [|d batch] eqn:Hs.
    { by apply slice_nonempty in Hs. }
    rewrite Hreach by (simpl; lia). cbv beta iota zeta.
    rewrite IH; [|done|simpl; intros k Hk; apply Hreach; simpl; lia].
    rewrite fmap_cons, Hs. simpl. unfold with_store. simpl.
    f_equal; [f_equal; lia|]. f_equal; [lia|by rewrite app_assoc].
Qed.

Lemma insert_all_eq env records st :
  insert_all env records st =
  match range 0 (len records) (batch_size (self st)) with
  | Return idxs => insert_loop env records (batch_size (self st)) idxs 0 st
  | Raise e => (Raise e, st)
  end.
Proof.
  unfold insert_all, mbind, M_bind, get_self, lift.
  by destruct (range 0 (len records) (batch_size (self st))).
Qed.

Lemma range_cases n bs :
  (bs = 0 ∧ range 0 n bs = Raise ValueError) ∨
  (bs ≠ 0 ∧ ∃ idxs, range 0 n bs = Return idxs).
Proof.
  unfold range. destruct (decide (bs = 0)); [by left|right].
  split; [done|]. case_decide; eauto.
Qed.

Lemma insert_all_frame env records st r st' :
  insert_all env records st = (r, st') → store_only records st st'.
Proof.
  rewrite insert_all_eq.
  destruct (range 0 (len records) (batch_size (self st))) as [idxs|e].
  - apply insert_loop_frame.
  - intros [= <- <-]. apply store_only_refl.
Qed.

(** The write loop raises for two reasons only: a zero [batch_size], and a
    store that cannot be reached.  A rejected document never makes it
    raise. *)
Lemma insert_all_raise env records st e st' :
  insert_all env records st = (Raise e, st') →
  (e = ValueError ∧ batch_size (self st) = 0) ∨
  (e = ServerSelectionTimeoutError ∧ ∃ k, reachable env k = false).
Proof.
  rewrite insert_all_eq.
  destruct (range_cases (len records) (batch_size (self st)))
    as [[H0 ->]|[Hne [idxs Hr]]].
  { intros [= <- <-]. by left. }
  rewrite Hr. intros Hl. right.
  destruct (decide (0 < batch_size (self st))) as [Hpos|Hneg].
  - eapply insert_loop_raise; [exact Hpos| |exact Hl].
    by eapply range_pos.
  - rewrite range_neg in Hr by (unfold len; lia).
    injection Hr as <-. discriminate Hl.
Qed.

Lemma insert_all_ok env records st :
  batch_size (self st) ≠ 0 →
  (∀ k, reachable env k = true) →
  insert_all env records st =
  (Return (reported_total env (insert_calls st)
             (sub_batches records (batch_size (self st)))),
   with_store
     (insert_calls st + length (sub_batches records (batch_size (self st))))
     (collection st ++ written env (insert_calls st)
                         (sub_batches records (batch_size (self st)))) st).
Proof.
  intros Hne Hreach. rewrite insert_all_eq. unfold sub_batches.
  destruct (decide (0 < batch_size (self st))) as [Hpos|Hneg].
  - destruct (range_cases (len records) (batch_size (self st)))
      as [[H0 _]|[_ [idxs Hr]]]; [done|].
    rewrite Hr. rewrite insert_loop_ok; [|done|by eapply range_pos|by auto].
    by rewrite Z.add_0_l, length_fmap.
  - rewrite range_neg by (unfold len; lia). simpl.
    unfold mret, M_ret, with_store. destruct st; simpl.
    by rewrite Nat.add_0_r, app_nil_r.
Qed.

(** *** The sub-batches *)

Lemma slice_take_drop {A} (l : list A) (i w : Z) :
  0 ≤ i → 0 ≤ w →
  slice l i (i + w) = take (Z.to_nat w) (drop (Z.to_nat i) l).
Proof.
  intros Hi Hw. unfold slice, slice_bound, len.
  rewrite !decide_False by lia.
  destruct (decide (i ≤ Z.of_nat (length l))) as [Hle|Hgt].
  - replace (Z.to_nat (Z.of_nat (length l) `min` i)) with (Z.to_nat i) by lia.
    rewrite <- (take_ge (drop (Z.to_nat i) l) (length l - Z.to_nat i))
      by (rewrite length_drop; lia).
    rewrite !take_take. f_equal. lia.
  - rewrite (drop_ge l (Z.to_nat i)) by lia.
    rewrite drop_ge by lia. by rewrite !take_nil.
Qed.

Lemma sub_batches_eq (records : list Document) (bs : Z) :
  0 < bs →
  sub_batches records bs
  = (λ k, take (Z.to_nat bs) (drop (k * Z.to_nat bs) records))
      <$> seq 0 (LoaderNotions.n_batches (len records) bs).
Proof.
  intros Hbs. unfold sub_batches, range, LoaderNotions.n_batches.
  rewrite decide_False by lia. rewrite decide_True by lia.
  rewrite <- list_fmap_compose. rewrite Z.sub_0_r.
  apply list_fmap_ext. intros _ k _. simpl.
  rewrite slice_take_drop by lia. do 2 f_equal. lia.
Qed.

Lemma concat_consecutive {A} (l : list A) (w c : nat) :
  concat ((λ k, take w (drop (k * w) l)) <$> seq 0 c) = take (c * w) l.
Proof.
  induction c as [|c IH]; [done|].
  rewrite seq_S, fmap_app, concat_app, IH. simpl.
  rewrite app_nil_r, take_take_drop. f_equal. lia.
Qed.

Lemma n_batches_bounds (n bs : Z) :
  0 ≤ n → 0 < bs →
  n ≤ Z.of_nat (LoaderNotions.n_batches n bs) * bs ∧
  (Z.of_nat (LoaderNotions.n_batches n bs) - 1) * bs < n
  ∨ n = 0 ∧ LoaderNotions.n_batches n bs = 0%nat.
Proof.
  intros Hn Hbs. unfold LoaderNotions.n_batches.
  pose proof (Z.mul_div_le (n + bs - 1) bs Hbs).
  pose proof (Z.mul_succ_div_gt (n + bs - 1) bs Hbs).
  assert (0 ≤ (n + bs - 1) `div` bs) by (apply Z.div_pos; lia).
  destruct (decide (n = 0)) as [->|Hne].
  - right. split; [done|]. rewrite Z.div_small by lia. done.
  - left. rewrite Z2Nat.id by done. nia.
Qed.

(** The sub-batches of a positive [batch_size], put end to end, are the
    records. *)
Lemma sub_batches_concat (records : list Document) (bs : Z) :
  0 < bs → concat (sub_batches records bs) = records.
Proof.
  intros Hbs. rewrite sub_batches_eq by done.
  assert (Hn : 0 ≤ len records) by (unfold len; lia).
  pose proof (n_batches_bounds (len records) bs Hn Hbs) as Hb.
  rewrite concat_consecutive. apply take_ge. unfold len in *. nia.
Qed.

Lemma sub_batches_length (records : list Document) (bs : Z) :
  0 < bs →
  length (sub_batches records bs) = LoaderNotions.n_batches (len records) bs.
Proof.
  intros Hbs. rewrite sub_batches_eq by done.
  by rewrite length_fmap, length_seq.
Qed.

(** Whatever its outcome, the loop appends documents of the sub-batches it
    was given, in their order. *)
Lemma insert_loop_sublist env records bs idxs : ∀ acc st r st',
  insert_loop env records bs idxs acc st = (r, st') →
  ∃ new, collection st' = collection st ++ new ∧
         new `sublist_of` concat ((λ i, slice records i (i + bs)) <$> idxs).
Proof.
  induction idxs as [|i idxs IH]; intros acc st r st'.
  - intros [= <- <-]. exists []. by rewrite app_nil_r.
  - rewrite insert_loop_cons, insert_batch_eq.
    destruct (slice records i (i + bs)) as [|d batch] eqn:Hs.
    { intros [= <- <-]. exists []. rewrite app_nil_r.
      split; [done|apply sublist_nil_l]. }
    destruct (reachable env (insert_calls st)).
    + cbv beta iota zeta. intros (new & Hc & Hsub)%IH.
      cbn [collection with_store] in Hc.
      eexists. split; [by rewrite Hc, <- app_assoc|].
      rewrite fmap_cons. cbn [concat]. rewrite Hs.
      apply sublist_app; [apply accepted_sublist|done].
    + intros [= <- <-]. exists []. simpl. rewrite app_nil_r.
      split; [done|apply sublist_nil_l].
Qed.

Lemma insert_all_sublist env records st r st' :
  insert_all env records st = (r, st') →
  ∃ new, collection st' = collection st ++ new ∧ new `sublist_of` records.
Proof.
  rewrite insert_all_eq.
  destruct (range_cases (len records) (batch_size (self st)))
    as [[H0 ->]|[Hne [idxs Hr]]].
  { intros [= <- <-]. exists []. rewrite app_nil_r.
    split; [done|apply sublist_nil_l]. }
  rewrite Hr. intros (new & Hc & Hsub)%insert_loop_sublist.
  exists new. split; [done|].
  destruct (decide (0 < batch_size (self st))) as [Hpos|Hneg].
  - pose proof (sub_batches_concat records _ Hpos) as Hcat.
    unfold sub_batches in Hcat. rewrite Hr in Hcat. by rewrite Hcat in Hsub.
  - rewrite range_neg in Hr by (unfold len; lia). injection Hr as <-.
    simpl in Hsub. apply sublist_nil_r in Hsub as ->. apply sublist_nil_l.
Qed.

(** The write loop never lets a [BulkWriteError] out. *)
Lemma insert_all_no_BulkWriteError env records st details :
  (insert_all env records st).1 ≠ Raise (BulkWriteError details).
Proof.
  destruct (insert_all env records st) as [[n|e] st'] eqn:Hi; [done|].
  apply insert_all_raise in Hi as [[-> _]|[-> _]]; done.
Qed.

(** *** Stamping the rows *)

(** [df.apply] reads the clock once for every row: the [i]-th row gets the
    reading number [now_calls st + i]. *)
Lemma apply_each_stamp env (mk : Z → Metadata) df : ∀ st,
  apply_each (λ _, t ← datetime_now env; mret (mk t)) df st =
  (Return (stamp env mk (now_calls st) df),
   with_now_calls (now_calls st + length df) st).
Proof.
  induction df as [|r df IH]; intros st.
  - simpl. unfold mret, M_ret, with_now_calls. destruct st; simpl.
    by rewrite Nat.add_0_r.
  - simpl. unfold mbind, M_bind, datetime_now at 1. simpl.
    fold (@mbind M M_bind). rewrite IH. simpl.
    unfold mret, M_ret, with_now_calls. simpl.
    do 2 f_equal. lia.
Qed.

(** On a frame without rows the clock is read once and nothing is
    stamped. *)
Lemma apply_rows_stamp env (mk : Z → Metadata) df st :
  apply_rows (λ _, t ← datetime_now env; mret (mk t)) df st =
  (Return (stamp env mk (now_calls st) df),
   with_now_calls (now_calls st + clock_readings df) st).
Proof.
  destruct df as [|r df]; [|apply apply_each_stamp].
  unfold apply_rows, mbind, M_bind, datetime_now, mret, M_ret, with_now_calls.
  simpl. do 2 f_equal. lia.
Qed.

Lemma stamp_length env mk df : ∀ k, length (stamp env mk k df) = length df.
Proof. induction df as [|r df IH]; intros k; simpl; by f_equal. Qed.

Lemma stamp_rows env mk df : ∀ k, row <$> stamp env mk k df = df.
Proof. induction df as [|r df IH]; intros k; simpl; by f_equal. Qed.

Lemma stamp_lookup env mk df : ∀ k i d,
  stamp env mk k df !! i = Some d →
  _metadata d = mk (now env (k + i)) ∧ df !! i = Some (row d).
Proof.
  induction df as [|r df IH]; intros k i d; simpl; [done|].
  destruct i as [|i]; simpl.
  - intros [= <-]. simpl. by rewrite Nat.add_0_r.
  - intros H. apply IH in H as [-> ->].
    split; [|done]. do 2 f_equal. lia.
Qed.

(** *** The two load methods, unfolded *)

Lemma cleanse_eq df st :
  cleanse df st =
  match subset_columns df with
  | Return rows => cleanse_rows rows st
  | Raise e => (Raise e, st)
  end.
Proof.
  unfold cleanse, mbind at 1, M_bind at 1, get_self.
  unfold mbind at 1, M_bind at 1, lift.
  destruct (subset_columns df) as [rows|e]; [|done].
  unfold cleanse_rows.
  destruct (Cleaner.cleanse (cleaner (self st)) rows) as [df' c'].
  reflexivity.
Qed.

Lemma pipeline_eq env mk finish df st :
  pipeline env mk finish df st =
  let c := Cleaner.cleanse (cleaner (self st)) df in
  match insert_all env (stamp env mk (now_calls st) c.1)
          (with_now_calls (now_calls st + clock_readings c.1)
             (with_cleaner c.2 st))
  with
  | (Return n, st3) =>
      (Return (finish (len c.1) n (Cleaner.stats (cleaner (self st3)))), st3)
  | (Raise e, st3) => (Raise e, st3)
  end.
Proof.
  unfold pipeline.
  unfold mbind at 1, M_bind at 1, cleanse_rows.
  rewrite (bind_Return _ _ _ _ _ (apply_rows_stamp env mk _ _)).
  simpl now_calls. cbv zeta.
  unfold mbind at 1, M_bind at 1.
  destruct (insert_all env _ _) as [[n|e] st3]; [|done].
  reflexivity.
Qed.

Lemma load_csv_chunk_eq env filepath start_row end_row batch_id st :
  load_csv_chunk env filepath start_row end_row batch_id st =
  match frame_read env (LoadChunk filepath start_row end_row batch_id) with
  | Return df =>
      pipeline env (chunk_metadata batch_id start_row end_row)
        (chunk_stats (end_row - start_row) batch_id) df st
  | Raise e => (Raise e, st)
  end.
Proof.
  unfold load_csv_chunk, frame_read, csv_read, mbind at 1, M_bind at 1, lift.
  destruct (read_csv env filepath _ _) as [f|e]; [|done].
  unfold mbind at 1, M_bind at 1. rewrite cleanse_eq.
  destruct (subset_columns f) as [df|e]; [|done].
  reflexivity.
Qed.

(** The [batch_id] of a full load: the caller's when it is not empty, one
    made from the clock otherwise. *)
Lemma batch_id_or_default_eq env batch_id st :
  ∃ b st1,
    batch_id_or_default env batch_id st = (Return b, st1) ∧
    self st1 = self st ∧ insert_calls st1 = insert_calls st ∧
    collection st1 = collection st ∧ (now_calls st ≤ now_calls st1)%nat.
Proof.
  unfold batch_id_or_default.
  destruct batch_id as [s|]; [destruct (decide (s = EmptyString))|];
    eexists _, _; (split; [reflexivity|]); simpl; repeat split; lia.
Qed.

Lemma load_full_csv_eq env filepath batch_id st b st1 :
  batch_id_or_default env batch_id st = (Return b, st1) →
  load_full_csv env filepath batch_id st =
  match frame_read env (LoadFull filepath batch_id) with
  | Return df =>
      pipeline env (full_metadata b) (full_stats (len df) b) df st1
  | Raise e => (Raise e, st1)
  end.
Proof.
  intros Hb. unfold load_full_csv.
  rewrite (bind_Return _ _ _ _ _ Hb).
  unfold frame_read, csv_read, mbind at 1, M_bind at 1, lift.
  destruct (read_csv env filepath _ _) as [f|e]; [|done].
  unfold mbind at 1, M_bind at 1. rewrite cleanse_eq.
  destruct (subset_columns f) as [df|e] eqn:Hk; [|done].
  apply subset_columns_Return in Hk as (-> & _). reflexivity.
Qed.

(** *** What one run of the common part does *)

Lemma pipeline_effect env mk finish df st r st' :
  pipeline env mk finish df st = (r, st') →
  batch_size (self st') = batch_size (self st) ∧
  Cleaner.stats (cleaner (self st'))
    = stats_add (Cleaner.stats (cleaner (self st))) (frame_drops df) ∧
  now_calls st'
    = (now_calls st
       + clock_readings (Cleaner.cleanse (cleaner (self st)) df).1)%nat ∧
  store_only
    (stamp env mk (now_calls st) (Cleaner.cleanse (cleaner (self st)) df).1)
    (with_now_calls
       (now_calls st
        + clock_readings (Cleaner.cleanse (cleaner (self st)) df).1)
       (with_cleaner (Cleaner.cleanse (cleaner (self st)) df).2 st))
    st'.
Proof.
  rewrite pipeline_eq. cbv zeta.
  destruct (insert_all env _ _) as [r3 st3] eqn:Hi.
  pose proof (insert_all_frame _ _ _ _ _ Hi) as Hfr.
  intros Hr. assert (st3 = st') as -> by (destruct r3; by injection Hr).
  destruct Hfr as (Hs & Hn & Hk & Hnew).
  repeat split; try done.
  - by rewrite Hs.
  - by rewrite Hs.
Qed.

(** Whatever its outcome, a run of the common part appends records of the
    cleansed frame to the collection, in their order. *)
Lemma pipeline_writes env mk finish df st r st' :
  pipeline env mk finish df st = (r, st') →
  ∃ new : list Document,
    collection st' = collection st ++ new ∧
    new `sublist_of`
      stamp env mk (now_calls st) (Cleaner.cleanse (cleaner (self st)) df).1.
Proof.
  rewrite pipeline_eq. cbv zeta.
  destruct (insert_all env _ _) as [r3 st3] eqn:Hi.
  apply insert_all_sublist in Hi as (new & Hc & Hsub).
  intros Hr. assert (st3 = st') as -> by (destruct r3; by injection Hr).
  by exists new.
Qed.

Lemma pipeline_raise env mk finish df st e st' :
  pipeline env mk finish df st = (Raise e, st') →
  (e = ValueError ∧ batch_size (self st) = 0) ∨
  (e = ServerSelectionTimeoutError ∧ ∃ k, reachable env k = false).
Proof.
  rewrite pipeline_eq. cbv zeta.
  destruct (insert_all env _ _) as [[n|e3] st3] eqn:Hi; [done|].
  intros [= <- <-]. by apply insert_all_raise in Hi.
Qed.

Lemma pipeline_return env mk finish df st s st' :
  pipeline env mk finish df st = (Return s, st') →
  ∃ n, s = finish (len (Cleaner.cleanse (cleaner (self st)) df).1) n
             (Cleaner.stats (cleaner (self st'))).
Proof.
  rewrite pipeline_eq. cbv zeta.
  destruct (insert_all env _ _) as [[n|e3] st3] eqn:Hi; [|done].
  intros [= <- <-]. by exists n.
Qed.

Lemma pipeline_ok env mk finish df st :
  batch_size (self st) ≠ 0 →
  (∀ k, reachable env k = true) →
  let c := Cleaner.cleanse (cleaner (self st)) df in
  let batches :=
    sub_batches (stamp env mk (now_calls st) c.1) (batch_size (self st)) in
  pipeline env mk finish df st =
  (Return (finish (len c.1) (reported_total env (insert_calls st) batches)
             (Cleaner.stats c.2)),
   with_store (insert_calls st + length batches)
     (collection st ++ written env (insert_calls st) batches)
     (with_now_calls (now_calls st + clock_readings c.1)
        (with_cleaner c.2 st))).
Proof.
  intros Hne Hreach c batches. rewrite pipeline_eq. cbv zeta.
  rewrite insert_all_ok by done. reflexivity.
Qed.

(** With a zero [batch_size] the common part ends in the [ValueError] of
    [range]. *)
Lemma pipeline_zero env mk finish df st :
  batch_size (self st) = 0 →
  (pipeline env mk finish df st).1 = Raise ValueError.
Proof.
  intros H0. rewrite pipeline_eq. cbv zeta. rewrite insert_all_eq.
  cbn [with_now_calls with_cleaner self batch_size]. by rewrite H0.
Qed.

(** Nothing is sent for an empty list of records. *)
Lemma insert_all_nil env st :
  batch_size (self st) ≠ 0 → insert_all env [] st = (Return 0, st).
Proof.
  intros Hne. rewrite insert_all_eq.
  destruct (range_cases (len (@nil Document)) (batch_size (self st)))
    as [[H0 _]|[_ [idxs Hr]]]; [done|]. rewrite Hr.
  destruct (decide (0 < batch_size (self st))) as [Hpos|Hneg].
  - apply range_pos in Hr; [|done]. destruct idxs as [|i idxs]; [done|].
    apply Forall_cons in Hr as [Hi _]. unfold len in Hi. simpl in Hi. lia.
  - rewrite range_neg in Hr by (unfold len; simpl; lia).
    by injection Hr as <-.
Qed.

(** *** The returned dicts *)

Lemma chunk_stats_lookup nrows b after inserted cs :
  chunk_stats nrows b after inserted cs !! "rows_read" = Some (SInt nrows) ∧
  chunk_stats nrows b after inserted cs !! "rows_after_cleansing"
    = Some (SInt after) ∧
  chunk_stats nrows b after inserted cs !! "rows_inserted"
    = Some (SInt inserted) ∧
  chunk_stats nrows b after inserted cs !! "cleansing_stats"
    = Some (SDict cs) ∧
  chunk_stats nrows b after inserted cs !! "batch_id" = Some (SStr b).
Proof. unfold chunk_stats. repeat split; by simplify_map_eq. Qed.

Lemma full_stats_lookup total b after inserted cs :
  full_stats total b after inserted cs !! "total_rows_read"
    = Some (SInt total) ∧
  full_stats total b after inserted cs !! "rows_read" = None ∧
  full_stats total b after inserted cs !! "rows_after_cleansing"
    = Some (SInt after) ∧
  full_stats total b after inserted cs !! "rows_inserted"
    = Some (SInt inserted) ∧
  full_stats total b after inserted cs !! "cleansing_stats"
    = Some (SDict cs) ∧
  full_stats total b after inserted cs !! "batch_id" = Some (SStr b).
Proof. unfold full_stats. repeat split; by simplify_map_eq. Qed.

(** *** What a chunk call does with the frame it gets *)

(** The records of a chunk call are the rows of the cleansed frame, each
    with the metadata of the call and its own clock reading; whatever the
    outcome of the call, the collection grows by some of them, in their
    order, and the cleaner counts the drops of the frame; a call that
    returns reports the width of the range and the number of records. *)
Lemma chunk_run env filepath (start_row end_row : Z) (batch_id : string)
    st df :
  frame_read env (LoadChunk filepath start_row end_row batch_id)
    = Return df →
  let run := load_csv_chunk env filepath start_row end_row batch_id st in
  let records := stamp env (chunk_metadata batch_id start_row end_row)
                   (now_calls st) (Cleaner.cleanse (cleaner (self st)) df).1 in
  (∃ new, collection run.2 = collection st ++ new ∧
          new `sublist_of` records) ∧
  Cleaner.stats (cleaner (self run.2))
    = stats_add (Cleaner.stats (cleaner (self st))) (frame_drops df) ∧
  (∀ stats, run.1 = Return stats →
     stats !! "rows_read" = Some (SInt (end_row - start_row)) ∧
     stats !! "rows_after_cleansing" = Some (SInt (len records))).
Proof.
  intros Hread run records. subst run.
  rewrite load_csv_chunk_eq, Hread.
  destruct (pipeline env _ _ df st) as [r st'] eqn:Hp. cbn [fst snd].
  split; [by eapply pipeline_writes|]. split.
  - by apply pipeline_effect in Hp as (_ & ? & _).
  - intros stats ->. apply pipeline_return in Hp as [n ->].
    match goal with
    | |- context [chunk_stats ?n ?b ?a ?i ?c] =>
        destruct (chunk_stats_lookup n b a i c) as (L1 & L2 & _)
    end.
    split; [done|]. rewrite L2. subst records. unfold len.
    by rewrite stamp_length.
Qed.


(** *** Provenance *)

(** C1, as the code has it.  The records of one call of [load_csv_chunk]
    are the rows of the cleansed frame, in their order, each with a
    [_metadata] of its own: the call's [batch_id], the string
    "{start_row}-{end_row}" as [source_rows], and as [ingested_at] the
    reading of the clock taken for that row when the frame is annotated,
    the [i]-th row getting the [i]-th reading made by the call.  What the
    call writes are records of these, in their order.  The written records
    therefore share [batch_id] and [source_rows], and share [ingested_at]
    when the clock shows one time over these readings. *)
Theorem chunk_provenance env filepath (start_row end_row : Z)
    (batch_id : string) st :
  let st' := (load_csv_chunk env filepath start_row end_row batch_id st).2 in
  let cleansed :=
    match frame_read env (LoadChunk filepath start_row end_row batch_id) with
    | Return df => (Cleaner.cleanse (cleaner (self st)) df).1
    | Raise _ => []
    end in
  ∃ records new : list Document,
    row <$> records = cleansed ∧
    (∀ i d, records !! i = Some d →
       Loader.batch_id (_metadata d) = batch_id ∧
       source_rows (_metadata d)
         = Some (pretty start_row +:+ "-" +:+ pretty end_row) ∧
       ingested_at (_metadata d) = now env (now_calls st + i)) ∧
    new `sublist_of` records ∧
    collection st' = collection st ++ new ∧
    (∀ d1 d2, d1 ∈ new → d2 ∈ new →
       Loader.batch_id (_metadata d1) = Loader.batch_id (_metadata d2) ∧
       source_rows (_metadata d1) = source_rows (_metadata d2)) ∧
    ((∀ k1 k2, now env k1 = now env k2) →
     ∀ d1 d2, d1 ∈ new → d2 ∈ new →
       ingested_at (_metadata d1) = ingested_at (_metadata d2)).
Proof.
  intros st' cleansed. subst st' cleansed. rewrite load_csv_chunk_eq.
  destruct (frame_read env _) as [df|e]; cbn [snd].
  2:{ exists [], []. rewrite app_nil_r. split; [done|].
      split; [done|]. split; [done|]. split; [done|].
      split; intros; exfalso; eapply not_elem_of_nil; eauto. }
  destruct (pipeline env _ _ df st) as [r st'] eqn:Hp. cbn [snd].
  apply pipeline_writes in Hp as (new & Hc & Hsub).
  set (records := stamp env (chunk_metadata batch_id start_row end_row)
                    (now_calls st) _) in *.
  assert (Hmeta : ∀ d, d ∈ new → ∃ i,
            _metadata d = chunk_metadata batch_id start_row end_row
                            (now env (now_calls st + i))).
  { intros d Hd. eapply elem_of_sublist in Hd; [|exact Hsub].
    apply list_elem_of_lookup in Hd as [i Hi]. exists i.
    by apply stamp_lookup in Hi as [-> _]. }
  exists records, new. split; [apply stamp_rows|].
  split; [|split; [done|split; [done|split]]].
  - intros i d Hi. by apply stamp_lookup in Hi as [-> _].
  - intros d1 d2 [i1 ->]%Hmeta [i2 ->]%Hmeta. done.
  - intros Hclock d1 d2 [i1 ->]%Hmeta [i2 ->]%Hmeta. simpl.
    apply Hclock.
Qed.

(** *** Empty and reversed row ranges *)

(** The header is read before [nrows] is looked at, and no data line
    after. *)
Lemma read_csv_reversed env filepath header rest (start_row end_row : Z) :
  csv_lines env filepath = Return (Some header :: rest) →
  end_row < start_row →
  read_csv env filepath (in_range 1 (start_row + 1))
    (Some (end_row - start_row)) = Raise ValueError.
Proof.
  intros Hf Hlt. unfold read_csv. rewrite Hf, skip_lines_header.
  cbn [omap list_omap id]. by rewrite decide_True by lia.
Qed.

(** C2, as the code has it: on a file that begins with a header line, with
    a non-zero [batch_size], [start_row = end_row] reads an empty batch
    and, the header naming [ts] and [device], the call returns statistics
    of zero rows without a single write; with [end_row < start_row] the
    negative [nrows] is rejected and the call raises [ValueError]. *)
Theorem empty_or_reversed_range env filepath header rest
    (start_row end_row : Z) (batch_id : string) st :
  csv_lines env filepath = Return (Some header :: rest) →
  batch_size (self st) ≠ 0 →
  (start_row = end_row →
     read_csv env filepath (in_range 1 (start_row + 1))
       (Some (end_row - start_row))
       = Return {| columns := header_names env header; data := [] |} ∧
     ("ts" ∈ header_names env header → "device" ∈ header_names env header →
      ∃ stats st',
        load_csv_chunk env filepath start_row end_row batch_id st
          = (Return stats, st') ∧
        stats !! "rows_read" = Some (SInt 0) ∧
        stats !! "rows_after_cleansing" = Some (SInt 0) ∧
        stats !! "rows_inserted" = Some (SInt 0) ∧
        collection st' = collection st ∧
        insert_calls st' = insert_calls st)) ∧
  (end_row < start_row →
     read_csv env filepath (in_range 1 (start_row + 1))
       (Some (end_row - start_row)) = Raise ValueError ∧
     load_csv_chunk env filepath start_row end_row batch_id st
       = (Raise ValueError, st)).
Proof.
  intros Hf Hbs. split.
  - intros <-.
    assert (Hread : read_csv env filepath (in_range 1 (start_row + 1))
                      (Some (start_row - start_row))
                    = Return {| columns := header_names env header;
                                data := [] |}).
    { rewrite (read_csv_range env filepath header rest) by (done || lia).
      by rewrite Z.sub_diag. }
    split; [done|]. intros Hts Hdev.
    assert (Hframe : frame_read env
                       (LoadChunk filepath start_row start_row batch_id)
                     = Return []).
    { apply frame_read_Return. eexists. split; [exact Hread|]. done. }
    rewrite load_csv_chunk_eq, Hframe, pipeline_eq. cbv zeta.
    change (Cleaner.cleanse (cleaner (self st)) []).1 with (@nil Row).
    cbn [stamp]. rewrite insert_all_nil by done.
    eexists _, _. split; [reflexivity|]. rewrite Z.sub_diag.
    match goal with
    | |- context [chunk_stats ?n ?b ?a ?i ?c] =>
        destruct (chunk_stats_lookup n b a i c) as (H1 & H2 & H3 & _)
    end.
    by repeat split.
  - intros Hlt.
    assert (Hread : read_csv env filepath (in_range 1 (start_row + 1))
                      (Some (end_row - start_row)) = Raise ValueError)
      by (by eapply read_csv_reversed).
    split; [done|].
    rewrite load_csv_chunk_eq. unfold frame_read, csv_read. by rewrite Hread.
Qed.

(** *** A full load of ten rows *)

Lemma drop_duplicates_from_dup seen r rest :
  Cleaner.subset_key r ∈ seen →
  Cleaner.drop_duplicates_from seen (r :: rest)
  = Cleaner.drop_duplicates_from seen rest.
Proof. intros H. simpl. by rewrite decide_True. Qed.

Lemma drop_duplicates_from_new seen r rest :
  Cleaner.subset_key r ∉ seen →
  Cleaner.drop_duplicates_from seen (r :: rest)
  = r :: Cleaner.drop_duplicates_from (Cleaner.subset_key r :: seen) rest.
Proof. intros H. simpl. by rewrite decide_False. Qed.

Lemma notna_key_differs r r' :
  Cleaner.notna r → device r' = None →
  Cleaner.subset_key r ≠ Cleaner.subset_key r'.
Proof.
  intros [_ [v Hv]] Hnone [= _ Hd]. rewrite Hv, Hnone in Hd. done.
Qed.

(** A key that differs from every key seen so far. *)
Ltac fresh_key :=
  rewrite ?not_elem_of_cons; repeat split;
  try apply not_elem_of_nil; congruence.

(** Ten rows of which the second repeats the key of the first, the fifth
    the key of the fourth, and the eighth has no [device]: two rows go as
    duplicates, then one for its missing value. *)
Lemma cleanse_ten_rows r1 r2 r3 r4 r5 r6 r7 r8 r9 r10 :
  Cleaner.subset_key r2 = Cleaner.subset_key r1 →
  Cleaner.subset_key r5 = Cleaner.subset_key r4 →
  device r8 = None →
  NoDup (Cleaner.subset_key <$> [r1; r3; r4; r6; r7; r9; r10]) →
  Forall Cleaner.notna [r1; r3; r4; r6; r7; r9; r10] →
  Cleaner.cleanse Cleaner.__init__ [r1; r2; r3; r4; r5; r6; r7; r8; r9; r10]
  = ([r1; r3; r4; r6; r7; r9; r10],
     {| Cleaner.stats := {| Cleaner.duplicates_removed := 2;
                            Cleaner.missing_values_dropped := 1 |} |}).
Proof.
  intros H2 H5 H8 Hnd Hna.
  rewrite !fmap_cons, !NoDup_cons, !not_elem_of_cons in Hnd.
  rewrite !Forall_cons in Hna.
  destruct Hna as (A1 & A3 & A4 & A6 & A7 & A9 & A10 & _).
  pose proof (notna_key_differs _ _ A1 H8).
  pose proof (notna_key_differs _ _ A3 H8).
  pose proof (notna_key_differs _ _ A4 H8).
  pose proof (notna_key_differs _ _ A6 H8).
  pose proof (notna_key_differs _ _ A7 H8).
  pose proof (notna_key_differs _ _ A9 H8).
  pose proof (notna_key_differs _ _ A10 H8).
  destruct_and!.
  assert (Hdd : Cleaner.drop_duplicates
                  [r1; r2; r3; r4; r5; r6; r7; r8; r9; r10]
                = [r1; r3; r4; r6; r7; r8; r9; r10]).
  { unfold Cleaner.drop_duplicates.
    rewrite drop_duplicates_from_new by apply not_elem_of_nil.
    rewrite drop_duplicates_from_dup by (rewrite H2; constructor).
    do 2 rewrite drop_duplicates_from_new by fresh_key.
    rewrite drop_duplicates_from_dup by (rewrite H5; constructor).
    do 5 rewrite drop_duplicates_from_new by fresh_key.
    done. }
  assert (Hna8 : ¬ Cleaner.notna r8).
  { intros [_ [v Hv]]. by rewrite H8 in Hv. }
  assert (Hdn : Cleaner.dropna [r1; r3; r4; r6; r7; r8; r9; r10]
                = [r1; r3; r4; r6; r7; r9; r10]).
  { unfold Cleaner.dropna.
    rewrite !filter_cons_True by done.
    rewrite filter_cons_False by done.
    by rewrite !filter_cons_True by done. }
  unfold Cleaner.cleanse, Cleaner._remove_duplicates,
    Cleaner._handle_missing_values.
  by rewrite Hdd, Hdn.
Qed.

(** C3, as the code has it: a new loader, a file of ten data rows in which
    rows 2 and 5 repeat rows 1 and 4 on [(ts, device)] and row 8 has no
    [device], a reachable store and a non-zero [batch_size].  [load_full_csv]
    returns a dict with [total_rows_read = 10] (the dict of a full load has
    no key [rows_read]), [rows_after_cleansing = 7] and [cleansing_stats]
    of 2 duplicates removed and 1 missing value dropped. *)
Theorem full_load_ten_rows env filepath cols
    r1 r2 r3 r4 r5 r6 r7 r8 r9 r10 (batch_id : option string) st :
  read_csv env filepath (λ _, false) None
    = Return {| columns := cols;
                data := [r1; r2; r3; r4; r5; r6; r7; r8; r9; r10] |} →
  "ts" ∈ cols → "device" ∈ cols →
  Cleaner.subset_key r2 = Cleaner.subset_key r1 →
  Cleaner.subset_key r5 = Cleaner.subset_key r4 →
  device r8 = None →
  NoDup (Cleaner.subset_key <$> [r1; r3; r4; r6; r7; r9; r10]) →
  Forall Cleaner.notna [r1; r3; r4; r6; r7; r9; r10] →
  cleaner (self st) = Cleaner.__init__ →
  batch_size (self st) ≠ 0 →
  (∀ k, reachable env k = true) →
  ∃ stats st',
    load_full_csv env filepath batch_id st = (Return stats, st') ∧
    stats !! "total_rows_read" = Some (SInt 10) ∧
    stats !! "rows_read" = None ∧
    stats !! "rows_after_cleansing" = Some (SInt 7) ∧
    stats !! "cleansing_stats"
      = Some (SDict {| Cleaner.duplicates_removed := 2;
                       Cleaner.missing_values_dropped := 1 |}).
Proof.
  intros Hread Hts Hdev H2 H5 H8 Hnd Hna Hnew Hbs Hreach.
  destruct (batch_id_or_default_eq env batch_id st)
    as (b & st1 & Hb & Hs & _ & _ & _).
  rewrite (load_full_csv_eq _ _ _ _ _ _ Hb).
  assert (Hframe : frame_read env (LoadFull filepath batch_id)
                   = Return [r1; r2; r3; r4; r5; r6; r7; r8; r9; r10]).
  { apply frame_read_Return. eexists. split; [exact Hread|]. done. }
  rewrite Hframe.
  rewrite pipeline_ok by (by rewrite ?Hs).
  rewrite Hs, Hnew, (cleanse_ten_rows _ _ _ _ _ _ _ _ _ _ H2 H5 H8 Hnd Hna).
  eexists _, _. split; [reflexivity|]. cbn [fst snd Cleaner.stats].
  match goal with
  | |- context [full_stats ?t ?b ?a ?i ?c] =>
      destruct (full_stats_lookup t b a i c) as (L1 & L2 & L3 & _ & L5 & _)
  end.
  done.
Qed.

(** *** Failures of one call *)

(** A call raises what kept it from getting a frame to cleanse, or the
    [ValueError] of a zero [batch_size], or because the store cannot be
    reached. *)
Lemma run_call_raise env c st e st' :
  run_call env c st = (Raise e, st') →
  frame_read env c = Raise e ∨
  (e = ValueError ∧ batch_size (self st) = 0) ∨
  (e = ServerSelectionTimeoutError ∧ ∃ k, reachable env k = false).
Proof.
  destruct c as [filepath start_row end_row b|filepath b]; unfold run_call.
  - rewrite load_csv_chunk_eq.
    destruct (frame_read env _) as [df|e0].
    + intros Hp%pipeline_raise. by right.
    + intros [= <- <-]. by left.
  - destruct (batch_id_or_default_eq env b st)
      as (b' & st1 & Hb & Hs & _ & _ & _).
    rewrite (load_full_csv_eq _ _ _ _ _ _ Hb).
    destruct (frame_read env _) as [df|e0].
    + intros Hp%pipeline_raise. rewrite Hs in Hp. by right.
    + intros [= <- <-]. by left.
Qed.

(** A call that gets no frame to cleanse raises, and a call that gets one
    with a zero [batch_size] raises [ValueError]. *)
Lemma run_call_no_frame env c st e :
  frame_read env c = Raise e → (run_call env c st).1 = Raise e.
Proof.
  destruct c as [filepath start_row end_row b|filepath b];
    unfold run_call; intros Hread.
  - by rewrite load_csv_chunk_eq, Hread.
  - destruct (batch_id_or_default_eq env b st)
      as (b' & st1 & Hb & _).
    by rewrite (load_full_csv_eq _ _ _ _ _ _ Hb), Hread.
Qed.

Lemma run_call_zero env c st df :
  frame_read env c = Return df → batch_size (self st) = 0 →
  (run_call env c st).1 = Raise ValueError.
Proof.
  destruct c as [filepath start_row end_row b|filepath b];
    unfold run_call; intros Hread H0.
  - rewrite load_csv_chunk_eq, Hread. by apply pipeline_zero.
  - destruct (batch_id_or_default_eq env b st)
      as (b' & st1 & Hb & Hs & _).
    rewrite (load_full_csv_eq _ _ _ _ _ _ Hb), Hread.
    apply pipeline_zero. by rewrite Hs.
Qed.

(** With a reachable store and a non-zero [batch_size], a call that gets a
    frame to cleanse returns its statistics; every sub-batch is sent, and
    [rows_inserted] adds up what the store reported for each of them. *)
Lemma run_call_ok env c st df :
  batch_size (self st) ≠ 0 →
  (∀ k, reachable env k = true) →
  frame_read env c = Return df →
  ∃ stats st' (records : list Document),
    run_call env c st = (Return stats, st') ∧
    row <$> records = (Cleaner.cleanse (cleaner (self st)) df).1 ∧
    stats !! "rows_after_cleansing" = Some (SInt (len records)) ∧
    stats !! "rows_inserted"
      = Some (SInt (reported_total env (insert_calls st)
                      (sub_batches records (batch_size (self st))))) ∧
    insert_calls st'
      = (insert_calls st
         + length (sub_batches records (batch_size (self st))))%nat ∧
    collection st'
      = collection st ++ written env (insert_calls st)
                           (sub_batches records (batch_size (self st))).
Proof.
  intros Hbs Hreach.
  destruct c as [filepath start_row end_row b|filepath b];
    unfold run_call; intros Hread.
  - rewrite load_csv_chunk_eq, Hread, pipeline_ok by done.
    eexists _, _, _. split; [reflexivity|].
    split; [apply stamp_rows|].
    match goal with
    | |- context [chunk_stats ?n ?b ?a ?i ?c] =>
        destruct (chunk_stats_lookup n b a i c) as (_ & L2 & L3 & _)
    end.
    rewrite L2, L3. unfold len. rewrite stamp_length. done.
  - destruct (batch_id_or_default_eq env b st)
      as (b' & st1 & Hb & Hs & Hk & Hc & _).
    rewrite (load_full_csv_eq _ _ _ _ _ _ Hb), Hread.
    rewrite pipeline_ok by (by rewrite ?Hs).
    rewrite Hs, Hk, Hc.
    eexists _, _, _. split; [reflexivity|].
    split; [apply stamp_rows|].
    match goal with
    | |- context [full_stats ?n ?b ?a ?i ?c] =>
        destruct (full_stats_lookup n b a i c) as (_ & _ & L2 & L3 & _)
    end.
    rewrite L2, L3. unfold len. rewrite stamp_length. done.
Qed.

(** C4, as the code has it, for both load methods.  A [BulkWriteError] of
    a sub-batch never reaches the caller: the write loop lets none out.
    With a reachable store and a non-zero [batch_size], a call whose read
    returns a frame that has the columns [ts] and [device] returns
    statistics, every sub-batch having been sent, and [rows_inserted] is
    the sum of the counts the store reported, the count of a sub-batch with
    exactly 3 rejected documents being short by exactly 3.  A call that
    raises raises the exception of its read, or [KeyError] for a frame
    without one of the two columns, or [ValueError] for a zero
    [batch_size], or [ServerSelectionTimeoutError] for a store that cannot
    be reached; and each of the first three does make the call raise, as
    does a read with [end_row < start_row], by [ValueError].  The outcome
    of a call is one value, statistics or an exception. *)
Theorem partial_write_tolerance env (c : Call) st :
  (∀ records st0 details,
     (insert_all env records st0).1 ≠ Raise (BulkWriteError details)) ∧
  (∀ df details, frame_read env c = Return df →
     (run_call env c st).1 ≠ Raise (BulkWriteError details)) ∧
  (∀ e, (run_call env c st).1 = Raise e →
     csv_read env c = Raise e ∨
     (e = KeyError ∧
      ∃ df, csv_read env c = Return df ∧
            ¬ ("ts" ∈ columns df ∧ "device" ∈ columns df)) ∨
     (e = ValueError ∧ batch_size (self st) = 0) ∨
     (e = ServerSelectionTimeoutError ∧ ∃ k, reachable env k = false)) ∧
  (∀ e, csv_read env c = Raise e → (run_call env c st).1 = Raise e) ∧
  (∀ df, csv_read env c = Return df →
     ¬ ("ts" ∈ columns df ∧ "device" ∈ columns df) →
     (run_call env c st).1 = Raise KeyError) ∧
  (∀ df, frame_read env c = Return df → batch_size (self st) = 0 →
     (run_call env c st).1 = Raise ValueError) ∧
  (∀ filepath start_row end_row b header rest,
     c = LoadChunk filepath start_row end_row b →
     csv_lines env filepath = Return (Some header :: rest) →
     end_row < start_row →
     run_call env c st = (Raise ValueError, st)) ∧
  (batch_size (self st) ≠ 0 → (∀ k, reachable env k = true) →
   ∀ df, frame_read env c = Return df →
     ∃ stats st' (records : list Document),
       run_call env c st = (Return stats, st') ∧
       row <$> records = (Cleaner.cleanse (cleaner (self st)) df).1 ∧
       stats !! "rows_after_cleansing" = Some (SInt (len records)) ∧
       stats !! "rows_inserted"
         = Some (SInt (reported_total env (insert_calls st)
                         (sub_batches records (batch_size (self st))))) ∧
       insert_calls st'
         = (insert_calls st
            + length (sub_batches records (batch_size (self st))))%nat ∧
       collection st'
         = collection st ++ written env (insert_calls st)
                              (sub_batches records (batch_size (self st)))) ∧
  (∀ k batch, length (rejected (rejects env k) 0 batch) = 3%nat →
     reported env k batch = len batch - 3).
Proof.
  split; [intros; apply insert_all_no_BulkWriteError|].
  split; [|split; [|split; [|split; [|split; [|split; [|split]]]]]].
  - intros df details Hread Hd.
    destruct (run_call env c st) as [r st'] eqn:Hrun. simpl in Hd. subst r.
    apply run_call_raise in Hrun as [Hr|[[? _]|[? _]]]; [|done|done].
    by rewrite Hread in Hr.
  - intros e He.
    destruct (run_call env c st) as [r st'] eqn:Hrun. simpl in He. subst r.
    apply run_call_raise in Hrun as [Hread|[?|?]]; [|by auto|by auto].
    apply frame_read_Raise in Hread as [?|?]; auto.
  - intros e Hread. apply run_call_no_frame, frame_read_Raise. by left.
  - intros df Hread Hk. apply run_call_no_frame, frame_read_Raise.
    right. split; [done|]. by exists df.
  - intros df Hread H0. by eapply run_call_zero.
  - intros filepath start_row end_row b header rest -> Hf Hlt.
    unfold run_call. rewrite load_csv_chunk_eq.
    unfold frame_read, csv_read.
    by rewrite (read_csv_reversed env filepath header rest).
  - intros Hbs Hreach df Hread. by apply run_call_ok.
  - intros k batch H3. rewrite reported_short. unfold len. by rewrite H3.
Qed.

(** *** One cleaner for all the calls of a loader *)

Lemma stats_add_zero_r a : stats_add a (Cleaner.stats Cleaner.__init__) = a.
Proof. destruct a. unfold stats_add. simpl. f_equal; lia. Qed.

Lemma stats_add_zero_l a : stats_add (Cleaner.stats Cleaner.__init__) a = a.
Proof. destruct a. unfold stats_add. simpl. f_equal; lia. Qed.

Lemma stats_add_assoc a b c :
  stats_add (stats_add a b) c = stats_add a (stats_add b c).
Proof. unfold stats_add. simpl. f_equal; lia. Qed.

Lemma stats_add_cancel a b :
  stats_add a b = b ↔ a = Cleaner.stats Cleaner.__init__.
Proof.
  destruct a as [a1 a2], b as [b1 b2]. unfold stats_add. simpl. split.
  - intros [= H1 H2]. f_equal; lia.
  - intros [= -> ->]. f_equal; lia.
Qed.

Lemma total_drops_app env l1 l2 :
  total_drops env (l1 ++ l2)
  = stats_add (total_drops env l1) (total_drops env l2).
Proof.
  induction l1 as [|c l1 IH]; simpl.
  - by rewrite stats_add_zero_l.
  - by rewrite IH, stats_add_assoc.
Qed.

(** A call adds the drops of its frame to the loader's cleaner, and the
    snapshot it returns is the state of that cleaner after the call. *)
Lemma run_call_stats env c st r st' :
  run_call env c st = (r, st') →
  Cleaner.stats (cleaner (self st'))
    = stats_add (Cleaner.stats (cleaner (self st))) (call_drops env c) ∧
  ∀ s, r = Return s →
       s !! "cleansing_stats"
       = Some (SDict (Cleaner.stats (cleaner (self st')))).
Proof.
  unfold call_drops.
  destruct c as [filepath start_row end_row b|filepath b]; unfold run_call.
  - rewrite load_csv_chunk_eq.
    destruct (frame_read env _) as [df|e0].
    + intros Hp. split; [by apply pipeline_effect in Hp as (_ & ? & _)|].
      intros s ->. apply pipeline_return in Hp as [n ->].
      apply chunk_stats_lookup.
    + intros [= <- <-]. by rewrite stats_add_zero_r.
  - destruct (batch_id_or_default_eq env b st)
      as (b' & st1 & Hb & Hs & _ & _ & _).
    rewrite (load_full_csv_eq _ _ _ _ _ _ Hb).
    destruct (frame_read env _) as [df|e0].
    + intros Hp. split.
      * apply pipeline_effect in Hp as (_ & Hst & _). by rewrite Hst, Hs.
      * intros s ->. apply pipeline_return in Hp as [n ->].
        apply full_stats_lookup.
    + intros [= <- <-]. by rewrite Hs, stats_add_zero_r.
Qed.

Lemma run_calls_stats env calls : ∀ st n s,
  (run_calls env calls st).1 !! n = Some (Return s) →
  s !! "cleansing_stats"
  = Some (SDict (stats_add (Cleaner.stats (cleaner (self st)))
                   (total_drops env (take (S n) calls)))).
Proof.
  induction calls as [|c calls IH]; intros st n s; [done|].
  cbn [run_calls].
  destruct (run_call env c st) as [r st1] eqn:Hc.
  destruct (run_calls env calls st1) as [rs st2] eqn:Hrest.
  apply run_call_stats in Hc as [Hst Hsnap].
  destruct n as [|n]; simpl.
  - intros [= ->]. rewrite (Hsnap s eq_refl), Hst.
    do 3 f_equal. symmetry. exact (stats_add_zero_r (call_drops env c)).
  - intros Hn. specialize (IH st1 n s). rewrite Hrest in IH.
    rewrite (IH Hn), Hst. by rewrite stats_add_assoc.
Qed.

(** C9: a loader has one cleaner, made by [__init__], for all its calls.
    The [cleansing_stats] returned by the call number [n] (from 0) of a
    new loader are the drops of the calls 0 to [n] added up; they are the
    drops of that call alone exactly when the calls before it dropped
    nothing, as for the first call of a new loader. *)
Theorem cleansing_stats_cumulative env (bs : Z) (calls : list Call) st
    (n : nat) (s : gmap string StatValue) :
  self st = __init__ bs →
  (run_calls env calls st).1 !! n = Some (Return s) →
  cleaner (__init__ bs) = Cleaner.__init__ ∧
  s !! "cleansing_stats"
    = Some (SDict (total_drops env (take (S n) calls))) ∧
  (∀ c, calls !! n = Some c →
     (s !! "cleansing_stats" = Some (SDict (call_drops env c)) ↔
      total_drops env (take n calls) = Cleaner.stats Cleaner.__init__)) ∧
  (n = 0%nat → ∀ c, calls !! n = Some c →
     s !! "cleansing_stats" = Some (SDict (call_drops env c))).
Proof.
  intros Hnew Hn. split; [done|].
  apply run_calls_stats in Hn. rewrite Hnew in Hn. simpl in Hn.
  rewrite stats_add_zero_l in Hn.
  assert (Hiff : ∀ c, calls !! n = Some c →
     (s !! "cleansing_stats" = Some (SDict (call_drops env c)) ↔
      total_drops env (take n calls) = Cleaner.stats Cleaner.__init__)).
  { intros c Hc. rewrite Hn, (take_S_r _ _ _ Hc), total_drops_app.
    cbn [total_drops]. rewrite stats_add_zero_r.
    rewrite <- stats_add_cancel. split; [by intros [= ->]|by intros ->]. }
  split; [done|]. split; [done|].
  intros -> c Hc. by apply Hiff.
Qed.

End LoaderFacts.

(** ** Concrete runs *)

Module Examples.
Import Py Loader Session Scenario Scenario2.

(** The dict of a full load has no key [rows_read]. *)
Lemma load_full_csv_no_rows_read env filepath batch_id st stats st' :
  load_full_csv env filepath batch_id st = (Return stats, st') →
  stats !! "rows_read" = None.
Proof.
  destruct (LoaderFacts.batch_id_or_default_eq env batch_id st)
    as (b & st1 & Hb & _).
  rewrite (LoaderFacts.load_full_csv_eq _ _ _ _ _ _ Hb).
  destruct (frame_read env _) as [df|e]; [|done].
  intros [n ->]%LoaderFacts.pipeline_return.
  apply LoaderFacts.full_stats_lookup.
Qed.

(** Against C1: with a clock that moves between two readings, two records
    written by one call of [load_csv_chunk] differ in [ingested_at]. *)
Lemma chunk_ingested_at_not_shared :
  ¬ (∀ d1 d2,
       d1 ∈ collection
              (load_csv_chunk env10 "sensors.csv" 0 10 "b1" (start 1000)).2 →
       d2 ∈ collection
              (load_csv_chunk env10 "sensors.csv" 0 10 "b1" (start 1000)).2 →
       ingested_at (_metadata d1) = ingested_at (_metadata d2)).
Proof.
  intros H.
  destruct (collection
              (load_csv_chunk env10 "sensors.csv" 0 10 "b1" (start 1000)).2)
    as [|d1 [|d2 rest]] eqn:Hc; [by vm_compute in Hc..|].
  specialize (H d1 d2 ltac:(constructor) ltac:(do 2 constructor)).
  vm_compute in Hc. injection Hc as <- <- _. by vm_compute in H.
Qed.

(** Against C2: on a readable file, [start_row = 2 > end_row = 1] is no
    empty batch: the read raises [ValueError], and so does the call. *)
Lemma reversed_range_raises :
  csv_lines env10 "sensors.csv"
    = Return (Some header_line :: (Some <$> ten_lines)) ∧
  (load_csv_chunk env10 "sensors.csv" 2 1 "b1" (start 1000)).1
    = Raise ValueError ∧
  ¬ ((∃ cols, read_csv env10 "sensors.csv" (in_range 1 (2 + 1))
                (Some (1 - 2)) = Return {| columns := cols; data := [] |}) ∧
     ∃ stats, (load_csv_chunk env10 "sensors.csv" 2 1 "b1" (start 1000)).1
                = Return stats).
Proof.
  split; [reflexivity|]. split; [vm_compute; reflexivity|].
  intros [[cols H] _]. vm_compute in H. discriminate H.
Qed.

(** Against C3: the statistics of the full load of the ten rows have the
    row count under [total_rows_read]; there is no [rows_read]. *)
Lemma full_load_has_no_rows_read :
  stat (load_full_csv env10 "sensors.csv" None (start 1000)).1
    "total_rows_read" = Some (SInt 10) ∧
  stat (load_full_csv env10 "sensors.csv" None (start 1000)).1
    "rows_read" = None ∧
  ¬ (∃ stats st',
       load_full_csv env10 "sensors.csv" None (start 1000)
         = (Return stats, st') ∧
       stats !! "rows_read" = Some (SInt 10) ∧
       stats !! "rows_after_cleansing" = Some (SInt 7) ∧
       stats !! "cleansing_stats"
         = Some (SDict {| Cleaner.duplicates_removed := 2;
                          Cleaner.missing_values_dropped := 1 |})).
Proof.
  split; [vm_compute; reflexivity|]. split; [vm_compute; reflexivity|].
  intros (stats & st' & Hrun & Hr & _).
  apply load_full_csv_no_rows_read in Hrun. congruence.
Qed.

(** Against C4: with the file readable and the store reachable, a call
    raises [ValueError], for [end_row < start_row] and for a zero
    [batch_size], and [KeyError] for a file without a [device] column:
    what propagates is not only a failure of the file or of the store. *)
Lemma value_error_propagates :
  csv_lines env10 "sensors.csv"
    = Return (Some header_line :: (Some <$> ten_lines)) ∧
  (∀ k, reachable env10 k = true) ∧
  (run_call env10 (LoadFull "sensors.csv" None) (start 0)).1
    = Raise ValueError ∧
  (run_call env_more (LoadFull "plain.csv" None) (start 1000)).1
    = Raise KeyError ∧
  ¬ (∀ e, (run_call env10 (LoadChunk "sensors.csv" 2 1 "b1")
             (start 1000)).1 = Raise e →
          e = FileNotFoundError ∨ e = UnicodeDecodeError ∨
          e = EmptyDataError ∨ e = ParserError ∨
          e = ServerSelectionTimeoutError).
Proof.
  split; [reflexivity|]. split; [done|]. split; [vm_compute; reflexivity|].
  split; [vm_compute; reflexivity|].
  intros H. specialize (H ValueError ltac:(vm_compute; reflexivity)).
  by destruct H as [|[|[|[|]]]].
Qed.


(** A sub-batch of five documents of which three are rejected: the count
    of the call is short by three, and the second sub-batch is sent. *)
Example three_rejected_documents :
  stat (load_csv_chunk env10_rejecting "sensors.csv" 0 10 "b1" (start 5)).1
    "rows_after_cleansing" = Some (SInt 7) ∧
  stat (load_csv_chunk env10_rejecting "sensors.csv" 0 10 "b1" (start 5)).1
    "rows_inserted" = Some (SInt 4) ∧
  insert_calls
    (load_csv_chunk env10_rejecting "sensors.csv" 0 10 "b1" (start 5)).2
    = 2%nat ∧
  length (collection
    (load_csv_chunk env10_rejecting "sensors.csv" 0 10 "b1" (start 5)).2)
    = 4%nat.
Proof. repeat split; vm_compute; reflexivity. Qed.

(** *** The theorems at concrete inputs *)

Lemma chunk_provenance_witness :
  ∃ records new : list Document,
    row <$> records = (Cleaner.cleanse Cleaner.__init__ ten_rows).1 ∧
    (∀ i d, records !! i = Some d →
       Loader.batch_id (_metadata d) = "b1" ∧
       source_rows (_metadata d) = Some "0-10" ∧
       ingested_at (_metadata d) = Z.of_nat i) ∧
    new `sublist_of` records ∧
    collection (load_csv_chunk env10 "sensors.csv" 0 10 "b1" (start 1000)).2
      = collection (start 1000) ++ new.
Proof.
  destruct (LoaderFacts.chunk_provenance env10 "sensors.csv" 0 10 "b1"
              (start 1000)) as (records & new & Hrows & Hmeta & Hsub & Hc & _).
  exists records, new. split; [exact Hrows|]. split.
  - intros i d Hi. destruct (Hmeta i d Hi) as (Hb & Hs & Ht).
    split; [exact Hb|]. split; [exact Hs|exact Ht].
  - split; [exact Hsub|exact Hc].
Defined.

Lemma empty_or_reversed_range_witness :
  read_csv env10 "sensors.csv" (in_range 1 (3 + 1)) (Some (3 - 3))
    = Return {| columns := ["ts"; "device"; "value"]; data := [] |} ∧
  load_csv_chunk env10 "sensors.csv" 5 3 "b1" (start 1000)
    = (Raise ValueError, start 1000).
Proof.
  split.
  - apply (LoaderFacts.empty_or_reversed_range env10 "sensors.csv"
             header_line (Some <$> ten_lines) 3 3 "b1" (start 1000));
      [reflexivity|simpl; lia|reflexivity].
  - apply (LoaderFacts.empty_or_reversed_range env10 "sensors.csv"
             header_line (Some <$> ten_lines) 5 3 "b1" (start 1000));
      [reflexivity|simpl; lia|lia].
Defined.

Lemma full_load_ten_rows_witness :
  ∃ stats st',
    load_full_csv env10 "sensors.csv" None (start 1000)
      = (Return stats, st') ∧
    stats !! "total_rows_read" = Some (SInt 10) ∧
    stats !! "rows_read" = None ∧
    stats !! "rows_after_cleansing" = Some (SInt 7) ∧
    stats !! "cleansing_stats"
      = Some (SDict {| Cleaner.duplicates_removed := 2;
                       Cleaner.missing_values_dropped := 1 |}).
Proof.
  apply (LoaderFacts.full_load_ten_rows env10 "sensors.csv"
           ["ts"; "device"; "value"]
           (reading 1 "A" 10) (reading 1 "A" 11) (reading 2 "A" 12)
           (reading 3 "B" 13) (reading 3 "B" 14) (reading 4 "B" 15)
           (reading 5 "C" 16)
           {| ts := Some (VNum 6); device := None;
              fields := [("value", Some (VNum 17))] |}
           (reading 7 "C" 18) (reading 8 "D" 19) None (start 1000)).
  - vm_compute. reflexivity.
  - refine (bool_decide_unpack _ _). vm_compute. exact I.
  - refine (bool_decide_unpack _ _). vm_compute. exact I.
  - reflexivity.
  - reflexivity.
  - reflexivity.
  - refine (bool_decide_unpack _ _). vm_compute. exact I.
  - refine (bool_decide_unpack _ _). vm_compute. exact I.
  - reflexivity.
  - simpl. lia.
  - intros k. reflexivity.
Defined.

Lemma partial_write_tolerance_witness :
  ∃ stats st' (records : list Document),
    run_call env10_rejecting (LoadChunk "sensors.csv" 0 10 "b1") (start 5)
      = (Return stats, st') ∧
    stats !! "rows_inserted"
      = Some (SInt (reported_total env10_rejecting 0 (sub_batches records 5))) ∧
    insert_calls st' = (0 + length (sub_batches records 5))%nat.
Proof.
  destruct (LoaderFacts.partial_write_tolerance env10_rejecting
              (LoadChunk "sensors.csv" 0 10 "b1") (start 5))
    as (_ & _ & _ & _ & _ & _ & _ & Hok & _).
  destruct (Hok ltac:(simpl; lia) ltac:(intros k; reflexivity) ten_rows
              ltac:(vm_compute; reflexivity))
    as (stats & st' & records & Hrun & _ & _ & Hins & Hk & _).
  exists stats, st', records. split; [exact Hrun|]. split; [exact Hins|exact Hk].
Defined.


Lemma row_count_data_rows_witness :
  get_csv_row_count env10 "sensors.csv" = Return 10 ∧
  get_csv_row_count (env_text (write_lines header_line ten_lines false))
    "sensors.csv" = Return 10.
Proof.
  split.
  - apply (RowCountFacts.row_count_data_rows env10 "sensors.csv" header_line
             ten_lines true).
    + refine (bool_decide_unpack _ _). vm_compute. exact I.
    + vm_compute. reflexivity.
  - apply (RowCountFacts.row_count_data_rows
             (env_text (write_lines header_line ten_lines false))
             "sensors.csv" header_line ten_lines false).
    + refine (bool_decide_unpack _ _). vm_compute. exact I.
    + reflexivity.
Defined.

Lemma row_count_lines_minus_one_witness :
  get_csv_row_count (env_text EmptyString) "empty.csv" = Return (-1) ∧
  get_csv_row_count (env_text header_line) "header.csv" = Return 0.
Proof.
  split.
  - apply (RowCountFacts.row_count_lines_minus_one (env_text EmptyString)
             "empty.csv" EmptyString); reflexivity.
  - apply (RowCountFacts.row_count_lines_minus_one (env_text header_line)
             "header.csv" header_line eq_refl).
    vm_compute. reflexivity.
Defined.

Lemma cleansing_stats_cumulative_witness :
  stat (default (Raise ValueError)
          ((run_calls env10 two_full_loads (start 1000)).1 !! 1%nat))
    "cleansing_stats"
  = Some (SDict {| Cleaner.duplicates_removed := 4;
                   Cleaner.missing_values_dropped := 2 |}) ∧
  call_drops env10 (LoadFull "sensors.csv" (Some "second"))
  = {| Cleaner.duplicates_removed := 2;
       Cleaner.missing_values_dropped := 1 |}.
Proof.
  split; [|vm_compute; reflexivity].
  destruct ((run_calls env10 two_full_loads (start 1000)).1 !! 1%nat)
    as [[s|e]|] eqn:Hn.
  - destruct (LoaderFacts.cleansing_stats_cumulative env10 1000
                two_full_loads (start 1000) 1 s eq_refl Hn) as (_ & Hs & _).
    simpl. rewrite Hs. vm_compute. reflexivity.
  - vm_compute in Hn. discriminate Hn.
  - vm_compute in Hn. discriminate Hn.
Defined.

End Examples.

(** * Further properties *)

(** ** The cleaner: which rows go, and on which counter *)

Module CleanerProps.
Import Cleaner CleanerNotions.

Lemma drop_duplicates_from_first seen df (k : Cell * Cell) :
  filter (λ r, subset_key r = k) (drop_duplicates_from seen df)
  = if decide (k ∈ seen) then []
    else take 1 (filter (λ r, subset_key r = k) df).
Proof.
  revert seen. induction df as [|r df IH]; intros seen.
  - simpl. by case_decide.
  - destruct (decide (subset_key r ∈ seen)) as [Hin|Hnin].
    + rewrite LoaderFacts.drop_duplicates_from_dup by done.
      rewrite IH. case_decide as Hk; [done|].
      rewrite (filter_cons_False _ r); [done|]. congruence.
    + rewrite LoaderFacts.drop_duplicates_from_new by done.
      destruct (decide (subset_key r = k)) as [<-|Hne].
      * rewrite !(filter_cons_True _ r) by done. rewrite IH.
        rewrite decide_True by (by left). by rewrite decide_False.
      * rewrite !(filter_cons_False _ r) by done. rewrite IH.
        destruct (decide (k ∈ seen)) as [Hk|Hk].
        -- rewrite decide_True; [done|]. by right.
        -- rewrite decide_False; [done|].
           intros [->|?]%elem_of_cons; done.
Qed.

(** X1: [keep='first'].  For every key, the rows of that key that
    [drop_duplicates] keeps are the first row of that key in the frame and
    no other. *)
Theorem drop_duplicates_keeps_first (df : DataFrame) (k : Cell * Cell) :
  filter (λ r, subset_key r = k) (drop_duplicates df)
  = take 1 (filter (λ r, subset_key r = k) df).
Proof.
  unfold drop_duplicates. rewrite drop_duplicates_from_first.
  rewrite decide_False; [done|]. apply not_elem_of_nil.
Qed.

Lemma drop_duplicates_from_sublist seen df :
  drop_duplicates_from seen df `sublist_of` df.
Proof.
  revert seen. induction df as [|r df IH]; intros seen; [done|].
  destruct (decide (subset_key r ∈ seen)).
  - rewrite LoaderFacts.drop_duplicates_from_dup by done.
    apply sublist_cons, IH.
  - rewrite LoaderFacts.drop_duplicates_from_new by done.
    apply sublist_skip, IH.
Qed.

(** De-duplication loses no key that was not seen before. *)
Lemma drop_duplicates_from_covers seen df r :
  r ∈ df → subset_key r ∉ seen →
  subset_key r ∈ subset_key <$> drop_duplicates_from seen df.
Proof.
  revert seen. induction df as [|x df IH]; intros seen Hr Hs.
  { by apply elem_of_nil in Hr. }
  apply elem_of_cons in Hr as [->|Hr].
  - rewrite LoaderFacts.drop_duplicates_from_new by done.
    rewrite fmap_cons. by left.
  - destruct (decide (subset_key x ∈ seen)) as [Hx|Hx].
    { rewrite LoaderFacts.drop_duplicates_from_dup by done. by apply IH. }
    rewrite LoaderFacts.drop_duplicates_from_new by done.
    rewrite fmap_cons.
    destruct (decide (subset_key r = subset_key x)) as [->|Hne]; [by left|].
    right. apply IH; [done|]. intros [?|?]%elem_of_cons; done.
Qed.

Lemma notna_key r : notna r ↔ key_present (subset_key r).
Proof. reflexivity. Qed.

(** What [cleanse] returns is clean. *)
Lemma cleanse_clean (self : DataCleaner) (df : DataFrame) :
  clean (cleanse self df).1.
Proof.
  rewrite CleanerFacts.cleanse_frame. split.
  - apply CleanerFacts.dropna_keys_NoDup.
    apply (CleanerFacts.drop_duplicates_from_keys [] df).
  - apply Forall_forall. intros r Hr.
    by apply list_elem_of_filter in Hr as [? _].
Qed.

(** X2: what [cleanse] returns.  The rows are rows of the input, unchanged
    and in their order; every one has [ts] and [device]; no two share a
    key; and every key of an input row that has both cells is the key of a
    returned row. *)
Theorem cleanse_output (self : DataCleaner) (df : DataFrame) :
  (cleanse self df).1 `sublist_of` df ∧
  Forall notna (cleanse self df).1 ∧
  NoDup (keys (cleanse self df).1) ∧
  (∀ r, r ∈ df → notna r → subset_key r ∈ keys (cleanse self df).1).
Proof.
  rewrite CleanerFacts.cleanse_frame. unfold keys. split; [|split; [|split]].
  - etrans; [apply sublist_filter|apply drop_duplicates_from_sublist].
  - apply Forall_forall. intros r Hr.
    by apply list_elem_of_filter in Hr as [? _].
  - apply CleanerFacts.dropna_keys_NoDup.
    apply (CleanerFacts.drop_duplicates_from_keys [] df).
  - intros r Hr Hna.
    pose proof (drop_duplicates_from_covers [] df r Hr
                  ltac:(apply not_elem_of_nil)) as Hk.
    apply list_elem_of_fmap in Hk as (r' & Heq & Hr').
    apply list_elem_of_fmap. exists r'. split; [done|].
    apply list_elem_of_filter. split; [|done].
    apply notna_key. rewrite <- Heq. by apply notna_key.
Qed.

Lemma dropna_drop_duplicates_from seen df :
  dropna (drop_duplicates_from seen df)
  = drop_duplicates_from (filter key_present seen) (dropna df).
Proof.
  unfold dropna. revert seen.
  induction df as [|r df IH]; intros seen; [done|].
  destruct (decide (notna r)) as [Hna|Hna].
  - rewrite (filter_cons_True _ r) by done.
    destruct (decide (subset_key r ∈ seen)) as [Hin|Hnin].
    + rewrite !LoaderFacts.drop_duplicates_from_dup;
        [apply IH| |done].
      apply list_elem_of_filter. by split; [apply notna_key|].
    + rewrite !LoaderFacts.drop_duplicates_from_new;
        [| |done].
      * rewrite (filter_cons_True _ r) by done. f_equal.
        rewrite IH. by rewrite filter_cons_True by (by apply notna_key).
      * by intros [_ ?]%list_elem_of_filter.
  - rewrite (filter_cons_False _ r) by done.
    destruct (decide (subset_key r ∈ seen)) as [Hin|Hnin].
    + rewrite LoaderFacts.drop_duplicates_from_dup by done. apply IH.
    + rewrite LoaderFacts.drop_duplicates_from_new by done.
      rewrite (filter_cons_False _ r) by done. rewrite IH.
      by rewrite filter_cons_False by (by rewrite <- notna_key).
Qed.

(** X3: the order of the two steps does not show in the frame.  What
    [cleanse] returns is what de-duplicating the rows that have both cells
    returns. *)
Theorem cleanse_steps_commute (self : DataCleaner) (df : DataFrame) :
  (cleanse self df).1 = drop_duplicates (dropna df).
Proof.
  rewrite CleanerFacts.cleanse_frame. unfold drop_duplicates.
  by rewrite dropna_drop_duplicates_from.
Qed.

Lemma sublist_same_length {A} (l1 l2 : list A) :
  l1 `sublist_of` l2 → (length l2 ≤ length l1)%nat → l1 = l2.
Proof.
  induction 1 as [|x l1 l2 Hs IH|x l1 l2 Hs IH]; simpl; intros Hlen.
  - done.
  - f_equal. apply IH. lia.
  - apply sublist_length in Hs. lia.
Qed.

Lemma dropna_id df : Forall notna df → dropna df = df.
Proof.
  unfold dropna. induction 1 as [|r df Hr _ IH]; [done|].
  rewrite filter_cons_True by done. by f_equal.
Qed.

(** X4: [cleanse] leaves a frame as it is exactly when the frame has no two
    rows of one key and no row without [ts] or [device]; and exactly then
    it leaves both counters as they are. *)
Theorem cleanse_unchanged_iff (self : DataCleaner) (df : DataFrame) :
  ((cleanse self df).1 = df ↔ clean df) ∧
  (stats (cleanse self df).2 = stats self ↔ clean df).
Proof.
  assert (Hframe : (cleanse self df).1 = df ↔ clean df).
  { split.
    - intros Heq. rewrite <- Heq. apply cleanse_clean.
    - intros [Hnd Hna]. rewrite CleanerFacts.cleanse_frame.
      unfold drop_duplicates.
      rewrite CleanerFacts.drop_duplicates_from_id;
        [by apply dropna_id|done|].
      intros k _. apply not_elem_of_nil. }
  split; [done|]. rewrite <- Hframe.
  rewrite CleanerFacts.cleanse_stats, CleanerFacts.cleanse_frame.
  pose proof (drop_duplicates_from_sublist [] df) as Hs1.
  pose proof (sublist_filter notna (drop_duplicates df)) as Hs2.
  fold (drop_duplicates df) in Hs1. fold (dropna (drop_duplicates df)) in Hs2.
  pose proof (sublist_length _ _ Hs1) as Hl1.
  pose proof (sublist_length _ _ Hs2) as Hl2.
  unfold len. destruct self as [[d m]]; simpl. split.
  - intros [= Hd Hm].
    rewrite (sublist_same_length _ _ Hs2) by lia.
    apply sublist_same_length; [done|lia].
  - intros Heq. apply (f_equal length) in Heq. f_equal; lia.
Qed.

Lemma drop_duplicates_from_seen_ext s1 s2 df :
  (∀ k, k ∈ s1 ↔ k ∈ s2) →
  drop_duplicates_from s1 df = drop_duplicates_from s2 df.
Proof.
  revert s1 s2. induction df as [|r df IH]; intros s1 s2 Hs; [done|].
  destruct (decide (subset_key r ∈ s1)) as [H1|H1].
  - rewrite !LoaderFacts.drop_duplicates_from_dup;
      [by apply IH|by apply Hs|done].
  - rewrite !LoaderFacts.drop_duplicates_from_new;
      [|by rewrite <- Hs|done].
    f_equal. apply IH. intros k. rewrite !elem_of_cons. by rewrite Hs.
Qed.

Lemma drop_duplicates_from_app seen l1 l2 :
  drop_duplicates_from seen (l1 ++ l2)
  = drop_duplicates_from seen l1
    ++ drop_duplicates_from (keys l1 ++ seen) l2.
Proof.
  revert seen. induction l1 as [|r l1 IH]; intros seen; [done|].
  rewrite <- app_comm_cons.
  destruct (decide (subset_key r ∈ seen)) as [H1|H1].
  - rewrite !LoaderFacts.drop_duplicates_from_dup by done. rewrite IH.
    f_equal. apply drop_duplicates_from_seen_ext.
    intros k. unfold keys. rewrite fmap_cons.
    rewrite ?elem_of_app, ?elem_of_cons.
    split; [tauto|intros [[->|?]|?]; auto].
  - rewrite !LoaderFacts.drop_duplicates_from_new by done. rewrite IH.
    rewrite <- app_comm_cons. do 2 f_equal.
    apply drop_duplicates_from_seen_ext.
    intros k. unfold keys. rewrite fmap_cons.
    rewrite ?elem_of_app, ?elem_of_cons, ?elem_of_app. tauto.
Qed.

Lemma drop_duplicates_from_seen_mono df : ∀ s1 s2,
  (∀ k, k ∈ s1 → k ∈ s2) →
  drop_duplicates_from s2 df `sublist_of` drop_duplicates_from s1 df.
Proof.
  induction df as [|r df IH]; intros s1 s2 Hs; [done|].
  destruct (decide (subset_key r ∈ s1)) as [H1|H1].
  - rewrite !LoaderFacts.drop_duplicates_from_dup by auto. by apply IH.
  - rewrite (LoaderFacts.drop_duplicates_from_new s1) by done.
    destruct (decide (subset_key r ∈ s2)) as [H2|H2].
    + rewrite LoaderFacts.drop_duplicates_from_dup by done.
      apply sublist_cons, IH.
      intros k [->|?]%elem_of_cons; auto.
    + rewrite LoaderFacts.drop_duplicates_from_new by done.
      apply sublist_skip, IH.
      intros k. rewrite !elem_of_cons. intros [?|?]; auto.
Qed.

Lemma drop_duplicates_from_seen_fresh df : ∀ extra seen,
  (∀ r, r ∈ df → subset_key r ∉ extra) →
  drop_duplicates_from (extra ++ seen) df = drop_duplicates_from seen df.
Proof.
  induction df as [|r df IH]; intros extra seen Hfresh; [done|].
  assert (Hr : subset_key r ∉ extra) by (apply Hfresh; by left).
  assert (Hdf : ∀ x, x ∈ df → subset_key x ∉ extra)
    by (intros x Hx; apply Hfresh; by right).
  destruct (decide (subset_key r ∈ seen)) as [H1|H1].
  - rewrite !LoaderFacts.drop_duplicates_from_dup;
      [by apply IH|done|]. apply elem_of_app. by right.
  - rewrite !LoaderFacts.drop_duplicates_from_new;
      [|done|by intros [?|?]%elem_of_app].
    f_equal. rewrite <- (IH extra (subset_key r :: seen)) by done.
    apply drop_duplicates_from_seen_ext. intros k.
    rewrite ?elem_of_app, ?elem_of_cons, ?elem_of_app. tauto.
Qed.

Lemma filter_sublist_mono {A} (P : A → Prop) `{!∀ x, Decision (P x)}
    (l1 l2 : list A) :
  l1 `sublist_of` l2 → filter P l1 `sublist_of` filter P l2.
Proof.
  induction 1 as [|x l1 l2 Hs IH|x l1 l2 Hs IH]; [done| |].
  - destruct (decide (P x)).
    + rewrite !filter_cons_True by done. by apply sublist_skip.
    + by rewrite !filter_cons_False by done.
  - destruct (decide (P x)).
    + rewrite filter_cons_True by done. by apply sublist_cons.
    + by rewrite filter_cons_False by done.
Qed.

(** X5: cleansing two chunks apart against cleansing them as one frame.
    What is left of the whole is left of the chunks too, in the same
    order: cleansing chunk by chunk never drops more (a row that repeats
    a key of the other chunk survives).  When no key occurs in both chunks
    the two results are the same. *)
Theorem cleanse_by_chunks (c c1 c2 : DataCleaner) (l1 l2 : DataFrame) :
  (cleanse c (l1 ++ l2)).1 `sublist_of` (cleanse c1 l1).1 ++ (cleanse c2 l2).1 ∧
  ((∀ r1 r2, r1 ∈ l1 → r2 ∈ l2 → subset_key r1 ≠ subset_key r2) →
   (cleanse c (l1 ++ l2)).1 = (cleanse c1 l1).1 ++ (cleanse c2 l2).1).
Proof.
  rewrite !CleanerFacts.cleanse_frame. unfold drop_duplicates, dropna.
  rewrite drop_duplicates_from_app, filter_app. split.
  - apply sublist_app; [done|].
    apply filter_sublist_mono, drop_duplicates_from_seen_mono.
    intros k Hk. by apply elem_of_nil in Hk.
  - intros Hdisj. f_equal. f_equal.
    apply drop_duplicates_from_seen_fresh.
    intros r2 H2 (r1 & Heq & H1)%list_elem_of_fmap.
    by apply (Hdisj r1 r2).
Qed.

Lemma filter_fmap_length {A B} (f : A → B) (P : B → Prop)
    `{!∀ y, Decision (P y)} (l : list A) :
  length (filter (λ x, P (f x)) l) = length (filter P (f <$> l)).
Proof.
  induction l as [|x l IH]; [done|]. rewrite fmap_cons.
  destruct (decide (P (f x))).
  - rewrite !filter_cons_True by done. simpl. by f_equal.
  - by rewrite !filter_cons_False by done.
Qed.

Lemma keys_drop_duplicates_perm df :
  keys (drop_duplicates df) ≡ₚ remove_dups (keys df).
Proof.
  apply NoDup_Permutation.
  - apply (CleanerFacts.drop_duplicates_from_keys [] df).
  - apply NoDup_remove_dups.
  - intros k. rewrite elem_of_remove_dups. unfold keys. split.
    + intros Hk. eapply elem_of_sublist; [exact Hk|].
      apply fmap_sublist, drop_duplicates_from_sublist.
    + intros (r & -> & Hr)%list_elem_of_fmap.
      apply drop_duplicates_from_covers; [done|apply not_elem_of_nil].
Qed.

(** X6: which counter a dropped row goes on.  One call of [cleanse] adds to
    [duplicates_removed] the number of rows minus the number of different
    keys, and to [missing_values_dropped] the number of different keys
    that lack a cell: of several rows that lack the same key one counts as
    a missing value and the others as duplicates. *)
Theorem cleanse_counters (self : DataCleaner) (df : DataFrame) :
  duplicates_removed (stats (cleanse self df).2)
    - duplicates_removed (stats self)
  = len df - len (remove_dups (keys df)) ∧
  missing_values_dropped (stats (cleanse self df).2)
    - missing_values_dropped (stats self)
  = len (filter (λ k, ¬ key_present k) (remove_dups (keys df))).
Proof.
  rewrite CleanerFacts.cleanse_stats. simpl.
  pose proof (keys_drop_duplicates_perm df) as Hperm.
  assert (Hdd : length (drop_duplicates df) = length (remove_dups (keys df))).
  { rewrite <- Hperm. unfold keys. by rewrite length_fmap. }
  assert (Hmiss : (length (dropna (drop_duplicates df))
                   + length (filter (λ k, ¬ key_present k)
                               (remove_dups (keys df)))
                   = length (drop_duplicates df))%nat).
  { rewrite <- Hperm. unfold keys.
    rewrite <- (filter_fmap_length subset_key (λ k, ¬ key_present k)).
    rewrite <- length_app.
    apply Permutation_length.
    apply (filter_app_complement notna (drop_duplicates df)). }
  unfold len. lia.
Qed.

End CleanerProps.

(** ** The loader: row ranges *)

Module LoaderProps.
Import Py Loader Session LoaderNotions.

(** X8: a chunk from row 0 that reaches the end of the file reads what a
    full load reads: all the data rows.  The two calls then have the same
    cleansing drops. *)
Theorem chunk_from_zero_is_full env filepath f (n : Z)
    (b : string) (b' : option string) :
  read_csv env filepath (λ _, false) None = Return f →
  "ts" ∈ columns f → "device" ∈ columns f →
  len (data f) ≤ n →
  frame_read env (LoadChunk filepath 0 n b) = Return (data f) ∧
  frame_read env (LoadFull filepath b') = Return (data f) ∧
  call_drops env (LoadChunk filepath 0 n b)
    = call_drops env (LoadFull filepath b').
Proof.
  intros Hfull Hts Hdev Hn.
  assert (Hchunk : read_csv env filepath (in_range 1 (0 + 1)) (Some (n - 0))
                   = Return f).
  { revert Hfull. unfold read_csv.
    destruct (csv_lines env filepath) as [lines|e]; [|done].
    rewrite (LoaderFacts.skip_lines_ext (in_range 1 (0 + 1)) (λ _, false))
      by (intros i Hi; unfold in_range; apply bool_decide_eq_false_2; lia).
    destruct (omap id (skip_lines (λ _, false) 0 lines))
      as [|header rest]; [done|].
    intros Hp. rewrite decide_False by (unfold len in Hn; lia).
    rewrite take_ge; [done|].
    apply LoaderFacts.parse_frame_Return in Hp. subst f.
    cbn [data] in Hn. unfold len in Hn. rewrite length_fmap in Hn. lia. }
  assert (H1 : frame_read env (LoadChunk filepath 0 n b) = Return (data f)).
  { apply LoaderFacts.frame_read_Return. by exists f. }
  assert (H2 : frame_read env (LoadFull filepath b') = Return (data f)).
  { apply LoaderFacts.frame_read_Return. by exists f. }
  split; [done|]. split; [done|]. unfold call_drops. by rewrite H1, H2.
Qed.

(** X9: a [start_row] below 0 is not an error and is not clipped in the
    row count: no line is skipped, blank or not, and the first
    [end_row - start_row] data lines of the file are parsed, which for
    [end_row > 0] goes past row [end_row].  These are the rows the call
    works on, and [rows_read] is [end_row - start_row]. *)
Theorem negative_start_row env filepath lines header rest
    (start_row end_row : Z) (b : string) st :
  csv_lines env filepath = Return lines →
  omap id lines = header :: rest →
  start_row ≤ 0 → start_row ≤ end_row →
  let selected := take (Z.to_nat (end_row - start_row)) rest in
  let rows := parse_row env header selected <$> selected in
  let run := load_csv_chunk env filepath start_row end_row b st in
  parse_error env header selected = None →
  "ts" ∈ header_names env header → "device" ∈ header_names env header →
  read_csv env filepath (in_range 1 (start_row + 1))
    (Some (end_row - start_row))
    = Return {| columns := header_names env header; data := rows |} ∧
  ∃ records new : list Document,
    row <$> records = (Cleaner.cleanse (cleaner (self st)) rows).1 ∧
    new `sublist_of` records ∧
    collection run.2 = collection st ++ new ∧
    Cleaner.stats (cleaner (self run.2))
      = stats_add (Cleaner.stats (cleaner (self st))) (frame_drops rows) ∧
    ∀ stats, run.1 = Return stats →
      stats !! "rows_read" = Some (SInt (end_row - start_row)) ∧
      stats !! "rows_after_cleansing" = Some (SInt (len records)).
Proof.
  intros Hf Hlines H0 Hle selected rows run Hparse Hts Hdev.
  assert (Hread : read_csv env filepath (in_range 1 (start_row + 1))
                    (Some (end_row - start_row))
                  = Return {| columns := header_names env header;
                              data := rows |}).
  { unfold read_csv. rewrite Hf.
    rewrite (LoaderFacts.skip_lines_ext (in_range 1 (start_row + 1))
               (λ _, false))
      by (intros i Hi; unfold in_range; apply bool_decide_eq_false_2; lia).
    rewrite LoaderFacts.skip_lines_none, Hlines.
    rewrite decide_False by lia. by apply LoaderFacts.parse_frame_ok. }
  split; [exact Hread|].
  assert (Hframe : frame_read env (LoadChunk filepath start_row end_row b)
                   = Return rows).
  { apply LoaderFacts.frame_read_Return. eexists. split; [exact Hread|]. done. }
  destruct (LoaderFacts.chunk_run env filepath start_row end_row b st rows
              Hframe) as ((new & Hc & Hsub) & Hstats & Hret).
  eexists _, new. split; [apply LoaderFacts.stamp_rows|]. split; [exact Hsub|].
  split; [exact Hc|]. split; [exact Hstats|exact Hret].
Qed.


(** ** The loader: sub-batches and writes *)

(** X11: the write loop cuts the records into consecutive sub-batches.
    For a positive [batch_size], the sub-batches put end to end are the
    records; there are [ceil(len(records) / batch_size)] of them; none is
    empty, none is longer than [batch_size], and every one but the last has
    exactly [batch_size] documents. *)
Theorem sub_batches_partition (records : list Document) (bs : Z) :
  0 < bs →
  concat (sub_batches records bs) = records ∧
  length (sub_batches records bs) = n_batches (len records) bs ∧
  (∀ b, b ∈ sub_batches records bs → b ≠ [] ∧ len b ≤ bs) ∧
  (∀ i b, sub_batches records bs !! i = Some b →
          (S i < length (sub_batches records bs))%nat → len b = bs).
Proof.
  intros Hbs. rewrite LoaderFacts.sub_batches_eq by done.
  assert (Hn : 0 ≤ len records) by (unfold len; lia).
  pose proof (LoaderFacts.n_batches_bounds (len records) bs Hn Hbs) as Hb.
  rewrite length_fmap, length_seq.
  split; [|split; [done|split]].
  - rewrite LoaderFacts.concat_consecutive. apply take_ge.
    unfold len in *. nia.
  - intros b (k & -> & Hk)%list_elem_of_fmap.
    apply elem_of_seq in Hk. unfold len in *.
    split.
    + intros Hnil. apply (f_equal length) in Hnil.
      rewrite length_take, length_drop in Hnil. simpl in Hnil. nia.
    + rewrite length_take. lia.
  - intros i b Hi Hlast.
    apply list_lookup_fmap_Some in Hi as (k & -> & Hk).
    apply lookup_seq in Hk as [-> _]. unfold len in *.
    rewrite length_take, length_drop. nia.
Qed.

Lemma accepted_all rej docs : ∀ i,
  (∀ j, rej j = false) → accepted rej i docs = docs.
Proof.
  induction docs as [|d docs IH]; intros i Hrej; simpl; [done|].
  rewrite Hrej. f_equal. by apply IH.
Qed.

Lemma written_length env batches : ∀ k,
  len (written env k batches) = reported_total env k batches.
Proof.
  induction batches as [|b batches IH]; intros k; simpl; [done|].
  unfold len in *. rewrite length_app, <- IH. unfold reported, len. lia.
Qed.

Lemma written_sublist env batches : ∀ k,
  written env k batches `sublist_of` concat batches.
Proof.
  induction batches as [|b batches IH]; intros k; simpl; [done|].
  apply sublist_app; [apply LoaderFacts.accepted_sublist|apply IH].
Qed.

Lemma written_all env batches : ∀ k,
  (∀ k i, rejects env k i = false) → written env k batches = concat batches.
Proof.
  induction batches as [|b batches IH]; intros k Hrej; simpl; [done|].
  rewrite accepted_all by auto. f_equal. by apply IH.
Qed.

(** The loop returns only when every sub-batch was answered. *)
Lemma insert_loop_return env records bs idxs :
  0 < bs → Forall (λ i, 0 ≤ i < len records) idxs →
  ∀ acc st n st',
    insert_loop env records bs idxs acc st = (Return n, st') →
    n = acc + reported_total env (insert_calls st)
                ((λ i, slice records i (i + bs)) <$> idxs) ∧
    st' = with_store (insert_calls st + length idxs)
            (collection st ++ written env (insert_calls st)
                                ((λ i, slice records i (i + bs)) <$> idxs)) st.
Proof.
  intros Hbs. induction idxs as [|i idxs IH]; intros Hall acc st n st'.
  - intros [= <- <-]. simpl. unfold with_store. destruct st; simpl.
    by rewrite Z.add_0_r, Nat.add_0_r, app_nil_r.
  - apply Forall_cons in Hall as [Hi Hall].
    rewrite LoaderFacts.insert_loop_cons, LoaderFacts.insert_batch_eq.
    destruct (slice records i (i + bs)) as [|d batch] eqn:Hs.
    { by apply LoaderFacts.slice_nonempty in Hs. }
    destruct (reachable env (insert_calls st)); [|done].
    cbv beta iota zeta. intros Hl. apply IH in Hl as [-> ->]; [|done].
    rewrite fmap_cons, Hs. simpl. unfold with_store. simpl.
    split; [lia|]. f_equal; [lia|by rewrite app_assoc].
Qed.

Lemma insert_all_return env records st n st' :
  insert_all env records st = (Return n, st') →
  n = reported_total env (insert_calls st)
        (sub_batches records (batch_size (self st))) ∧
  st' = with_store
          (insert_calls st
           + length (sub_batches records (batch_size (self st))))
          (collection st ++ written env (insert_calls st)
                              (sub_batches records (batch_size (self st))))
          st.
Proof.
  rewrite LoaderFacts.insert_all_eq. unfold sub_batches.
  destruct (LoaderFacts.range_cases (len records) (batch_size (self st)))
    as [[H0 ->]|[Hne [idxs Hr]]]; [done|].
  rewrite Hr. destruct (decide (0 < batch_size (self st))) as [Hpos|Hneg].
  - intros Hl. apply insert_loop_return in Hl as [-> ->];
      [|done|by eapply LoaderFacts.range_pos].
    by rewrite Z.add_0_l, length_fmap.
  - rewrite LoaderFacts.range_neg in Hr by (unfold len; lia).
    injection Hr as <-. intros [= <- <-]. simpl.
    unfold with_store. destruct st; simpl.
    by rewrite Nat.add_0_r, app_nil_r.
Qed.

(** What a returning run of the common part has written. *)
Lemma pipeline_return_writes env mk finish df st s st' :
  pipeline env mk finish df st = (Return s, st') →
  ∃ new : list Document,
    collection st' = collection st ++ new ∧
    new `sublist_of`
      stamp env mk (now_calls st) (Cleaner.cleanse (cleaner (self st)) df).1 ∧
    s = finish (len (Cleaner.cleanse (cleaner (self st)) df).1) (len new)
          (Cleaner.stats (cleaner (self st'))).
Proof.
  intros Hp.
  destruct (LoaderFacts.pipeline_writes _ _ _ _ _ _ _ Hp)
    as (new & Hc & Hsub).
  revert Hp. rewrite LoaderFacts.pipeline_eq. cbv zeta.
  destruct (insert_all env _ _) as [[n|e] st3] eqn:Hi; [|done].
  intros [= <- <-]. apply insert_all_return in Hi as [-> ->].
  cbn [collection with_store with_now_calls with_cleaner] in Hc.
  apply app_inv_head in Hc. subst new.
  eexists. split; [reflexivity|]. split; [exact Hsub|].
  by rewrite written_length.
Qed.

Lemma stamp_batch_id env mk b df : ∀ k d,
  (∀ t, Loader.batch_id (mk t) = b) →
  d ∈ stamp env mk k df → Loader.batch_id (_metadata d) = b.
Proof.
  intros k d Hmk [i Hi]%list_elem_of_lookup.
  apply LoaderFacts.stamp_lookup in Hi as [-> _]. apply Hmk.
Qed.

(** X12: [rows_inserted] counts the documents the call has added.  When a
    call returns, its records are the rows of the cleansed frame, each
    with the [batch_id] that the statistics name; the collection has grown
    by some of these records, in their order; [rows_inserted] is their
    number and [rows_after_cleansing] the number of the records, so that
    [0 <= rows_inserted <= rows_after_cleansing]. *)
Theorem rows_inserted_counts_writes env (c : Call) st stats st' :
  run_call env c st = (Return stats, st') →
  ∃ df (b : string) (records new : list Document),
    frame_read env c = Return df ∧
    row <$> records = (Cleaner.cleanse (cleaner (self st)) df).1 ∧
    stats !! "batch_id" = Some (SStr b) ∧
    (∀ d, d ∈ records → Loader.batch_id (_metadata d) = b) ∧
    collection st' = collection st ++ new ∧
    new `sublist_of` records ∧
    stats !! "rows_after_cleansing" = Some (SInt (len records)) ∧
    stats !! "rows_inserted" = Some (SInt (len new)) ∧
    0 ≤ len new ≤ len records.
Proof.
  assert (Hlen : ∀ new records : list Document,
            new `sublist_of` records → 0 ≤ len new ≤ len records).
  { intros new records Hs%sublist_length. unfold len. lia. }
  destruct c as [filepath start_row end_row b|filepath b]; unfold run_call.
  - rewrite LoaderFacts.load_csv_chunk_eq.
    destruct (frame_read env _) as [df|e]; [|done].
    intros (new & Hc & Hsub & ->)%pipeline_return_writes.
    eexists df, b, (stamp env (chunk_metadata b start_row end_row)
                      (now_calls st) _), new.
    split; [done|].
    split; [apply LoaderFacts.stamp_rows|].
    match goal with
    | |- context [chunk_stats ?n ?b ?a ?i ?c] =>
        destruct (LoaderFacts.chunk_stats_lookup n b a i c)
          as (_ & L2 & L3 & _ & L5)
    end.
    split; [exact L5|].
    split; [intros d Hd; eapply stamp_batch_id; [|exact Hd]; done|].
    split; [exact Hc|]. split; [exact Hsub|].
    rewrite L2, L3. unfold len at 1. rewrite <- (LoaderFacts.stamp_length env
      (chunk_metadata b start_row end_row) _ (now_calls st)).
    split; [done|]. split; [done|]. by apply Hlen.
  - destruct (LoaderFacts.batch_id_or_default_eq env b st)
      as (b' & st1 & Hb & Hs & Hk & Hc1 & _).
    rewrite (LoaderFacts.load_full_csv_eq _ _ _ _ _ _ Hb).
    destruct (frame_read env _) as [df|e]; [|done].
    intros (new & Hc & Hsub & ->)%pipeline_return_writes.
    rewrite Hc1 in Hc. rewrite Hs in Hsub.
    eexists df, b', (stamp env (full_metadata b') (now_calls st1) _), new.
    split; [done|].
    split; [apply LoaderFacts.stamp_rows|].
    match goal with
    | |- context [full_stats ?n ?b ?a ?i ?c] =>
        destruct (LoaderFacts.full_stats_lookup n b a i c)
          as (_ & _ & L2 & L3 & _ & L5)
    end.
    split; [exact L5|].
    split; [intros d Hd; eapply stamp_batch_id; [|exact Hd]; done|].
    split; [exact Hc|]. split; [exact Hsub|].
    rewrite L2, L3, Hs. unfold len at 1.
    rewrite <- (LoaderFacts.stamp_length env
      (full_metadata b') _ (now_calls st1)).
    split; [done|]. split; [done|]. by apply Hlen.
Qed.

(** X13: a store that can be reached and rejects nothing.  With a positive
    [batch_size], a call whose read succeeds, with a frame that has the
    columns [ts] and [device], appends all its records to the
    collection, in their order, in [ceil(n / batch_size)] bulk writes, and
    returns [rows_inserted = rows_after_cleansing]. *)
Theorem all_documents_written env (c : Call) st df :
  0 < batch_size (self st) →
  (∀ k, reachable env k = true) →
  (∀ k i, rejects env k i = false) →
  frame_read env c = Return df →
  ∃ stats st' (records : list Document),
    run_call env c st = (Return stats, st') ∧
    row <$> records = (Cleaner.cleanse (cleaner (self st)) df).1 ∧
    collection st' = collection st ++ records ∧
    insert_calls st'
      = (insert_calls st + n_batches (len records) (batch_size (self st)))%nat ∧
    stats !! "rows_after_cleansing" = Some (SInt (len records)) ∧
    stats !! "rows_inserted" = Some (SInt (len records)).
Proof.
  intros Hbs Hreach Hrej Hread.
  destruct (LoaderFacts.run_call_ok env c st df ltac:(lia) Hreach Hread)
    as (stats & st' & records & Hrun & Hrows & Hafter & Hins & Hk & Hc).
  pose proof (LoaderFacts.sub_batches_concat records _ Hbs) as Hcat.
  pose proof (LoaderFacts.sub_batches_length records _ Hbs) as Hlen.
  exists stats, st', records. split; [done|]. split; [done|].
  rewrite written_all, Hcat in Hc by done. split; [done|].
  rewrite Hlen in Hk. split; [done|]. split; [done|].
  by rewrite Hins, <- written_length, written_all, Hcat.
Qed.

Lemma insert_all_negative env records st :
  batch_size (self st) < 0 → insert_all env records st = (Return 0, st).
Proof.
  intros Hneg. rewrite LoaderFacts.insert_all_eq.
  by rewrite LoaderFacts.range_neg by (unfold len; lia).
Qed.

(** X14: a negative [batch_size] is not refused.  The write loop has no
    turn: a call whose read succeeds, with a frame that has the columns
    [ts] and [device], cleanses the frame (the counters
    grow), sends nothing to the store, whether it can be reached or not,
    and returns statistics with [rows_inserted = 0]. *)
Theorem negative_batch_size_writes_nothing env (c : Call) st df :
  batch_size (self st) < 0 →
  frame_read env c = Return df →
  ∃ stats st',
    run_call env c st = (Return stats, st') ∧
    stats !! "rows_after_cleansing"
      = Some (SInt (len (Cleaner.cleanse (cleaner (self st)) df).1)) ∧
    stats !! "rows_inserted" = Some (SInt 0) ∧
    collection st' = collection st ∧
    insert_calls st' = insert_calls st ∧
    Cleaner.stats (cleaner (self st'))
      = stats_add (Cleaner.stats (cleaner (self st))) (frame_drops df).
Proof.
  intros Hneg.
  destruct c as [filepath start_row end_row b|filepath b];
    unfold run_call; intros Hread.
  - rewrite LoaderFacts.load_csv_chunk_eq, Hread, LoaderFacts.pipeline_eq.
    cbv zeta. rewrite insert_all_negative by done.
    eexists _, _. split; [reflexivity|].
    match goal with
    | |- context [chunk_stats ?n ?b ?a ?i ?c] =>
        destruct (LoaderFacts.chunk_stats_lookup n b a i c)
          as (_ & L2 & L3 & _)
    end.
    by rewrite L2, L3.
  - destruct (LoaderFacts.batch_id_or_default_eq env b st)
      as (b' & st1 & Hb & Hs & Hk & Hc & _).
    rewrite (LoaderFacts.load_full_csv_eq _ _ _ _ _ _ Hb), Hread.
    rewrite LoaderFacts.pipeline_eq. cbv zeta.
    rewrite insert_all_negative by (cbn; by rewrite Hs).
    eexists _, _. split; [reflexivity|].
    match goal with
    | |- context [full_stats ?n ?b ?a ?i ?c] =>
        destruct (LoaderFacts.full_stats_lookup n b a i c)
          as (_ & _ & L2 & L3 & _)
    end.
    rewrite L2, L3, Hs. by cbn.
Qed.

(** The loop stops at the first bulk write the store does not answer. *)
Lemma insert_loop_unreachable env records bs idxs :
  0 < bs → Forall (λ i, 0 ≤ i < len records) idxs →
  ∀ (j : nat) acc st,
    (j < length idxs)%nat →
    (∀ k, (insert_calls st ≤ k < insert_calls st + j)%nat →
          reachable env k = true) →
    reachable env (insert_calls st + j) = false →
    insert_loop env records bs idxs acc st =
    (Raise ServerSelectionTimeoutError,
     with_store (S (insert_calls st + j))
       (collection st ++ written env (insert_calls st)
                           (take j ((λ i, slice records i (i + bs)) <$> idxs)))
       st).
Proof.
  intros Hbs. induction idxs as [|i idxs IH]; intros Hall j acc st Hj Hok Hko.
  { simpl in Hj. lia. }
  apply Forall_cons in Hall as [Hi Hall].
  rewrite LoaderFacts.insert_loop_cons, LoaderFacts.insert_batch_eq.
  destruct (slice records i (i + bs)) as [|d batch] eqn:Hs.
  { by apply LoaderFacts.slice_nonempty in Hs. }
  destruct j as [|j].
  - rewrite Nat.add_0_r in Hko. rewrite Hko. cbv beta iota zeta.
    simpl. rewrite Nat.add_0_r. unfold with_store. by rewrite app_nil_r.
  - rewrite Hok by lia. cbv beta iota zeta.
    rewrite (IH Hall j); simpl in *.
    + rewrite Hs. unfold with_store. simpl.
      do 2 f_equal; [lia|by rewrite app_assoc].
    + lia.
    + intros k Hk. apply Hok. lia.
    + by replace (S (insert_calls st + j)) with (insert_calls st + S j)%nat
        by lia.
Qed.

(** X15: a call that fails half-way takes nothing back.  With a positive
    [batch_size], a store that answers the first [j] bulk writes of the
    call and not the next one makes the call raise
    [ServerSelectionTimeoutError]; the documents accepted in the first
    [j] sub-batches stay in the collection, and the cleaner's counters keep
    the drops of the call. *)
Theorem store_failure_keeps_partial_writes env (c : Call) st df (j : nat) :
  0 < batch_size (self st) →
  frame_read env c = Return df →
  (j < n_batches (len (Cleaner.cleanse (cleaner (self st)) df).1)
         (batch_size (self st)))%nat →
  (∀ k, (insert_calls st ≤ k < insert_calls st + j)%nat →
        reachable env k = true) →
  reachable env (insert_calls st + j) = false →
  ∃ st' (records : list Document),
    run_call env c st = (Raise ServerSelectionTimeoutError, st') ∧
    row <$> records = (Cleaner.cleanse (cleaner (self st)) df).1 ∧
    collection st'
      = collection st
        ++ written env (insert_calls st)
             (take j (sub_batches records (batch_size (self st)))) ∧
    insert_calls st' = S (insert_calls st + j) ∧
    Cleaner.stats (cleaner (self st'))
      = stats_add (Cleaner.stats (cleaner (self st))) (frame_drops df).
Proof.
  intros Hbs Hread Hj Hok Hko.
  assert (Hloop : ∀ mk st1,
    self st1 = self st → insert_calls st1 = insert_calls st →
    insert_all env
      (stamp env mk (now_calls st1)
         (Cleaner.cleanse (cleaner (self st)) df).1)
      (with_now_calls
         (now_calls st1
          + clock_readings (Cleaner.cleanse (cleaner (self st)) df).1)
         (with_cleaner (Cleaner.cleanse (cleaner (self st)) df).2 st1))
    = (Raise ServerSelectionTimeoutError,
       with_store (S (insert_calls st + j))
         (collection st1
          ++ written env (insert_calls st)
               (take j (sub_batches
                  (stamp env mk (now_calls st1)
                     (Cleaner.cleanse (cleaner (self st)) df).1)
                  (batch_size (self st)))))
         (with_now_calls
            (now_calls st1
             + clock_readings (Cleaner.cleanse (cleaner (self st)) df).1)
            (with_cleaner (Cleaner.cleanse (cleaner (self st)) df).2 st1)))).
  { intros mk st1 Hs1 Hk1.
    rewrite LoaderFacts.insert_all_eq.
    cbn [with_now_calls with_cleaner self batch_size]. rewrite Hs1.
    unfold sub_batches.
    destruct (LoaderFacts.range_cases
                (len (stamp env mk (now_calls st1)
                        (Cleaner.cleanse (cleaner (self st)) df).1))
                (batch_size (self st)))
      as [[H0 _]|[_ [idxs Hr]]]; [lia|].
    rewrite Hr.
    assert (Hlen : length idxs
              = n_batches (len (Cleaner.cleanse (cleaner (self st)) df).1)
                  (batch_size (self st))).
    { pose proof (LoaderFacts.sub_batches_length
                    (stamp env mk (now_calls st1)
                       (Cleaner.cleanse (cleaner (self st)) df).1)
                    _ Hbs) as Hl.
      unfold sub_batches in Hl. rewrite Hr, length_fmap in Hl.
      rewrite Hl. unfold len. by rewrite LoaderFacts.stamp_length. }
    rewrite (insert_loop_unreachable env _ _ idxs Hbs
               ltac:(by eapply LoaderFacts.range_pos) j);
      cbn [with_now_calls with_cleaner insert_calls collection];
      rewrite ?Hk1; [done|lia|done|done]. }
  destruct c as [filepath start_row end_row b|filepath b];
    unfold run_call in *.
  - rewrite LoaderFacts.load_csv_chunk_eq, Hread, LoaderFacts.pipeline_eq.
    cbv zeta. rewrite (Hloop _ st eq_refl eq_refl).
    eexists _, _. split; [reflexivity|].
    split; [apply LoaderFacts.stamp_rows|]. by cbn.
  - destruct (LoaderFacts.batch_id_or_default_eq env b st)
      as (b' & st1 & Hb & Hs & Hk & Hc & _).
    rewrite (LoaderFacts.load_full_csv_eq _ _ _ _ _ _ Hb), Hread.
    rewrite LoaderFacts.pipeline_eq. cbv zeta. rewrite Hs.
    rewrite (Hloop _ st1 Hs Hk).
    eexists _, _. split; [reflexivity|].
    split; [apply LoaderFacts.stamp_rows|]. cbn. by rewrite Hc.
Qed.

(** ** The loader: full loads, counters over several calls *)

Lemma batch_id_or_default_exact env batch_id st :
  ∃ st1,
    batch_id_or_default env batch_id st
      = (Return (full_batch_id env batch_id st), st1) ∧
    self st1 = self st ∧ insert_calls st1 = insert_calls st ∧
    collection st1 = collection st ∧
    now_calls st1 = (now_calls st + id_readings batch_id)%nat.
Proof.
  unfold batch_id_or_default, full_batch_id, id_readings, falsy.
  destruct batch_id as [s|]; [destruct (decide (s = EmptyString))|].
  - rewrite bool_decide_eq_true_2 by done.
    eexists. split; [reflexivity|]. simpl. repeat split; lia.
  - rewrite bool_decide_eq_false_2 by done.
    eexists. split; [reflexivity|]. simpl. repeat split; lia.
  - eexists. split; [reflexivity|]. simpl. repeat split; lia.
Qed.

(** X16: the provenance of a full load.  The [batch_id] is the caller's
    when it is given and not empty, and otherwise ["full_"] followed by the
    formatted first clock reading of the call.  The records of the call
    are the rows of the cleansed frame, in their order, each with that
    [batch_id], no [source_rows], and the clock reading taken for its row,
    the [i]-th row getting the [i]-th reading after those spent on the
    [batch_id]; what the call writes are records of these, in their order;
    the returned statistics name the same [batch_id]. *)
Theorem full_load_provenance env filepath (batch_id : option string) st :
  let cleansed :=
    match frame_read env (LoadFull filepath batch_id) with
    | Return df => (Cleaner.cleanse (cleaner (self st)) df).1
    | Raise _ => []
    end in
  ∃ records new : list Document,
    row <$> records = cleansed ∧
    (∀ i d, records !! i = Some d →
       Loader.batch_id (_metadata d) = full_batch_id env batch_id st ∧
       source_rows (_metadata d) = None ∧
       ingested_at (_metadata d)
         = now env (now_calls st + id_readings batch_id + i)) ∧
    new `sublist_of` records ∧
    collection (load_full_csv env filepath batch_id st).2
      = collection st ++ new ∧
    (∀ stats, (load_full_csv env filepath batch_id st).1 = Return stats →
       stats !! "batch_id" = Some (SStr (full_batch_id env batch_id st))) ∧
    (∀ s, batch_id = Some s → s ≠ EmptyString →
       full_batch_id env batch_id st = s) ∧
    (falsy batch_id = true →
       full_batch_id env batch_id st
       = "full_" +:+ strftime env (now env (now_calls st))).
Proof.
  intros cleansed. subst cleansed.
  assert (Hid : (∀ s, batch_id = Some s → s ≠ EmptyString →
                   full_batch_id env batch_id st = s) ∧
                (falsy batch_id = true →
                   full_batch_id env batch_id st
                   = "full_" +:+ strftime env (now env (now_calls st)))).
  { unfold full_batch_id, falsy. split.
    - intros s -> Hs. by rewrite decide_False.
    - destruct batch_id as [s|]; [|done].
      intros Hs%bool_decide_eq_true. by rewrite decide_True. }
  destruct (batch_id_or_default_exact env batch_id st)
    as (st1 & Hb & Hs & Hk & Hc & Hn).
  rewrite (LoaderFacts.load_full_csv_eq _ _ _ _ _ _ Hb).
  destruct (frame_read env _) as [df|e]; cbn [fst snd].
  2:{ exists [], []. rewrite Hc, app_nil_r. split; [done|].
      split; [done|]. split; [done|]. split; [done|]. split; [done|].
      exact Hid. }
  destruct (pipeline env _ _ df st1) as [r st'] eqn:Hp. cbn [fst snd].
  pose proof (LoaderFacts.pipeline_writes _ _ _ _ _ _ _ Hp)
    as (new & Hcoll & Hsub).
  rewrite Hc in Hcoll. rewrite Hs in Hsub.
  eexists _, new. split; [apply LoaderFacts.stamp_rows|].
  split; [|split; [exact Hsub|split; [exact Hcoll|split; [|exact Hid]]]].
  - intros i d Hi. apply LoaderFacts.stamp_lookup in Hi as [-> _].
    rewrite Hn. done.
  - intros stats ->. apply LoaderFacts.pipeline_return in Hp as [n ->].
    apply LoaderFacts.full_stats_lookup.
Qed.

Lemma frame_drops_nonneg df :
  stats_le (Cleaner.stats Cleaner.__init__) (frame_drops df).
Proof.
  unfold stats_le, frame_drops, len. simpl.
  pose proof (CleanerFacts.drop_duplicates_from_length [] df) as Hd.
  pose proof (CleanerFacts.dropna_length (Cleaner.drop_duplicates df)).
  fold (Cleaner.drop_duplicates df) in Hd. lia.
Qed.

Lemma total_drops_nonneg env calls :
  stats_le (Cleaner.stats Cleaner.__init__) (total_drops env calls).
Proof.
  induction calls as [|c calls IH]; simpl; [done|].
  assert (Hc : stats_le (Cleaner.stats Cleaner.__init__) (call_drops env c)).
  { unfold call_drops. destruct (frame_read env c); [|done].
    apply frame_drops_nonneg. }
  unfold stats_le, stats_add in *. simpl in *. lia.
Qed.

Lemma run_calls_final env calls : ∀ st,
  Cleaner.stats (cleaner (self (run_calls env calls st).2))
  = stats_add (Cleaner.stats (cleaner (self st))) (total_drops env calls).
Proof.
  induction calls as [|c calls IH]; intros st.
  - simpl. by rewrite LoaderFacts.stats_add_zero_r.
  - cbn [run_calls total_drops].
    destruct (run_call env c st) as [r st1] eqn:Hc.
    specialize (IH st1).
    destruct (run_calls env calls st1) as [rs st2] eqn:Hrest.
    apply LoaderFacts.run_call_stats in Hc as [Hst _].
    simpl in *. by rewrite IH, Hst, LoaderFacts.stats_add_assoc.
Qed.

(** X17: the counters of a loader only grow.  Over any sequence of calls
    on one loader, whether they return or raise, neither counter is lower
    at the end than at the start, and of two calls that return the later
    one reports counters at least as high as the earlier one. *)
Theorem counters_never_decrease env (calls : list Call) st :
  stats_le (Cleaner.stats (cleaner (self st)))
    (Cleaner.stats (cleaner (self (run_calls env calls st).2))) ∧
  (∀ i j si sj, (i ≤ j)%nat →
     (run_calls env calls st).1 !! i = Some (Return si) →
     (run_calls env calls st).1 !! j = Some (Return sj) →
     ∃ a b, si !! "cleansing_stats" = Some (SDict a) ∧
            sj !! "cleansing_stats" = Some (SDict b) ∧ stats_le a b).
Proof.
  split.
  - rewrite run_calls_final.
    pose proof (total_drops_nonneg env calls).
    unfold stats_le, stats_add in *. simpl in *. lia.
  - intros i j si sj Hij Hi Hj.
    apply LoaderFacts.run_calls_stats in Hi, Hj.
    eexists _, _. split; [exact Hi|]. split; [exact Hj|].
    rewrite <- (take_drop (S i) (take (S j) calls)).
    rewrite take_take, Nat.min_l by lia.
    rewrite LoaderFacts.total_drops_app.
    pose proof (total_drops_nonneg env (drop (S i) (take (S j) calls))).
    unfold stats_le, stats_add in *. simpl in *. lia.
Qed.

End LoaderProps.

(** ** Counting lines: bounds *)

Module RowCountProps.
Import Py Loader.

Lemma append_not_empty (a : string) (c : Ascii.ascii) :
  a +:+ String c EmptyString ≠ EmptyString.
Proof. by destruct a. Qed.

Lemma readlines_from_nil (s : string) : ∀ cur,
  readlines_from cur s = [] ↔ cur = EmptyString ∧ s = EmptyString.
Proof.
  induction s as [|c s IH]; intros cur; simpl.
  - case_decide; [by split|]. split; [done|]. by intros [? _].
  - split; [|by intros [_ ?]].
    intros H. exfalso.
    destruct (decide (c = LF)); [done|].
    destruct (decide (c = CR)).
    + destruct s as [|c' s']; [done|]. by destruct (decide (c' = LF)).
    + apply IH in H as [H _]. by apply append_not_empty in H.
Qed.

Lemma readlines_from_length (s : string) : ∀ cur,
  (length (readlines_from cur s)
   ≤ String.length s + (if decide (cur = EmptyString) then 0 else 1))%nat.
Proof.
  induction s as [|c s IH]; intros cur; simpl.
  - case_decide; simpl; lia.
  - destruct (decide (c = LF)).
    { specialize (IH EmptyString). rewrite decide_True in IH by done.
      simpl. case_decide; lia. }
    destruct (decide (c = CR)).
    + destruct s as [|c' s']; [simpl; case_decide; lia|].
      destruct (decide (c' = LF)).
      * specialize (IH EmptyString). rewrite decide_True in IH by done.
        simpl in *.
        destruct (decide (c' = LF)); [|done].
        simpl in IH. case_decide; lia.
      * specialize (IH EmptyString). rewrite decide_True in IH by done.
        simpl in *. case_decide; lia.
    + specialize (IH (cur +:+ String c EmptyString)).
      rewrite decide_False in IH by apply append_not_empty.
      case_decide; lia.
Qed.

(** X18: the range of [get_csv_row_count].  What opening or reading the
    file raises, for a missing file or for bytes that cannot be decoded,
    is raised to the caller; on a file that reads as text it returns a
    number that is at least -1 and less than the number of characters of
    the text (or -1), and that is -1 exactly when the text is empty. *)
Theorem row_count_range env (filepath : string) :
  match files env filepath with
  | Raise e => get_csv_row_count env filepath = Raise e
  | Return text =>
      ∃ n, get_csv_row_count env filepath = Return n ∧
           -1 ≤ n ∧ n + 1 ≤ Z.of_nat (String.length text) ∧
           (n = -1 ↔ text = EmptyString)
  end.
Proof.
  unfold get_csv_row_count.
  destruct (files env filepath) as [text|e]; [|done].
  eexists. split; [reflexivity|]. unfold len, readlines.
  pose proof (readlines_from_length text EmptyString) as Hlen.
  rewrite decide_True in Hlen by done.
  pose proof (readlines_from_nil text EmptyString) as Hnil.
  split; [lia|]. split; [lia|]. split.
  - intros Hn. apply Hnil. apply length_zero_iff_nil. lia.
  - intros ->. done.
Qed.

End RowCountProps.

(** ** Counting lines: the three line terminators *)

Module TextProps.
Import Py Loader TextNotions.

Lemma readlines_from_eol (eol l cur rest : string) :
  eol ∈ [eol_LF; eol_CRLF; eol_CR] →
  no_newline l = true →
  (∀ rest', rest ≠ String LF rest') →
  readlines_from cur (l +:+ eol +:+ rest)
  = (cur +:+ l +:+ String LF EmptyString) :: readlines_from EmptyString rest.
Proof.
  intros Heol Hl Hrest.
  rewrite RowCountFacts.readlines_from_chars by done.
  rewrite <- RowCountFacts.append_assoc.
  apply elem_of_cons in Heol as [->|Heol];
    [|apply elem_of_cons in Heol as [->|Heol];
      [|apply elem_of_cons in Heol as [->|Heol];
        [|by apply elem_of_nil in Heol]]].
  - reflexivity.
  - reflexivity.
  - change (eol_CR +:+ rest) with (String CR rest). simpl.
    destruct rest as [|c' rest']; [reflexivity|].
    destruct (decide (c' = LF)) as [->|Hc]; [|reflexivity].
    by destruct (Hrest rest').
Qed.

Lemma write_lines_eol_head eol l rest trailing :
  ∃ tail, write_lines_eol eol l rest trailing = l +:+ tail.
Proof. destruct rest; simpl; eauto. Qed.

Lemma line_not_LF (l tail rest' : string) :
  no_newline l = true → l ≠ EmptyString → l +:+ tail ≠ String LF rest'.
Proof.
  destruct l as [|c l]; [done|]. intros Hl _.
  rewrite RowCountFacts.append_cons_l. intros [= -> _].
  simpl in Hl. discriminate Hl.
Qed.

Lemma readlines_write_lines_eol (eol : string) (rest : list string) :
  eol ∈ [eol_LF; eol_CRLF; eol_CR] →
  ∀ first trailing,
    Forall (λ l, no_newline l = true ∧ l ≠ EmptyString) (first :: rest) →
    length (readlines (write_lines_eol eol first rest trailing))
    = S (length rest).
Proof.
  intros Heol. unfold readlines.
  induction rest as [|l rest IH]; intros first trailing Hall; simpl.
  - apply Forall_cons in Hall as [[Hf Hne] _].
    destruct trailing.
    + rewrite <- (RowCountFacts.append_empty_r eol).
      by rewrite readlines_from_eol.
    + rewrite RowCountFacts.append_empty_r.
      rewrite <- (RowCountFacts.append_empty_r first) at 1.
      rewrite RowCountFacts.readlines_from_chars by done. simpl.
      by rewrite decide_False.
  - apply Forall_cons in Hall as [[Hf Hne] Hall].
    rewrite readlines_from_eol; [|done|done|].
    + simpl. f_equal. by apply IH.
    + intros rest'.
      destruct (write_lines_eol_head eol l rest trailing) as [tail ->].
      apply Forall_cons in Hall as [[Hl Hlne] _]. by apply line_not_LF.
Qed.

(** X19: the line terminator does not change the count.  On a file made
    of a header line and [n] data lines, none of them empty or holding a
    terminator, whether the lines end with ["\n"], ["\r\n"] or ["\r"],
    and whether or not the last one is terminated, [get_csv_row_count]
    returns [n]. *)
Theorem row_count_any_terminator env (filepath eol header : string)
    (rows : list string) (trailing : bool) :
  eol ∈ [eol_LF; eol_CRLF; eol_CR] →
  Forall (λ l, no_newline l = true ∧ l ≠ EmptyString) (header :: rows) →
  files env filepath = Return (write_lines_eol eol header rows trailing) →
  get_csv_row_count env filepath = Return (len rows).
Proof.
  intros Heol Hall Hfile. unfold get_csv_row_count. rewrite Hfile.
  f_equal. unfold len. rewrite readlines_write_lines_eol by done. lia.
Qed.

End TextProps.

(** ** The connection settings *)

Module ConnectionProps.
Import Connection LoaderNotions.

Lemma py_or_empty (a : option string) (b : string) :
  py_or a b = EmptyString ↔ falsy a = true ∧ b = EmptyString.
Proof.
  unfold py_or, falsy. destruct a as [s|]; [|by split; [|intros []]].
  destruct (decide (s = EmptyString)).
  - rewrite bool_decide_eq_true_2 by done. by split; [|intros []].
  - rewrite bool_decide_eq_false_2 by done. split; [done|by intros []].
Qed.

(** X20: where the URI and the database name come from.  An argument that
    is given and not empty is used whatever the environment holds; without
    one, the environment variable is used as it is when it is set, even to
    the empty string, and the built-in default only when it is unset.  So
    the URI (the database name) is empty exactly when no argument counts
    and [MONGO_URI] ([MONGO_DB]) is set to the empty string. *)
Theorem settings_precedence (environ : gmap string string)
    (uri db coll : option string) (bs : option Z) :
  (∀ v, uri = Some v → v ≠ EmptyString →
     mongo_uri (settings environ uri db coll bs) = v) ∧
  (∀ v, db = Some v → v ≠ EmptyString →
     database (settings environ uri db coll bs) = v) ∧
  (falsy uri = true →
     mongo_uri (settings environ uri db coll bs)
     = default "mongodb://localhost:27017/" (environ !! "MONGO_URI")) ∧
  (falsy db = true →
     database (settings environ uri db coll bs)
     = default "sensor_data" (environ !! "MONGO_DB")) ∧
  (mongo_uri (settings environ uri db coll bs) = EmptyString ↔
     falsy uri = true ∧ environ !! "MONGO_URI" = Some EmptyString) ∧
  (database (settings environ uri db coll bs) = EmptyString ↔
     falsy db = true ∧ environ !! "MONGO_DB" = Some EmptyString).
Proof.
  unfold settings. cbn [mongo_uri database].
  split; [|split; [|split; [|split; [|split]]]].
  - intros v -> Hv. unfold py_or. by rewrite decide_False.
  - intros v -> Hv. unfold py_or. by rewrite decide_False.
  - unfold py_or, falsy, getenv. destruct uri as [s|]; [|done].
    intros Hs%bool_decide_eq_true. by rewrite decide_True.
  - unfold py_or, falsy, getenv. destruct db as [s|]; [|done].
    intros Hs%bool_decide_eq_true. by rewrite decide_True.
  - rewrite py_or_empty. unfold getenv.
    destruct (environ !! "MONGO_URI") as [v|]; simpl.
    + split; intros [? ?]; (split; [done|congruence]).
    + split; intros [? ?]; done.
  - rewrite py_or_empty. unfold getenv.
    destruct (environ !! "MONGO_DB") as [v|]; simpl.
    + split; intros [? ?]; (split; [done|congruence]).
    + split; intros [? ?]; done.
Qed.

End ConnectionProps.

(** ** The entry point *)

Module EntryProps.
Import Py Loader Session Entry.

(** X21: without a file argument the script stops before it has a loader.
    It prints its arguments and the usage line and exits with status 1;
    no client is created, no index, and the store and the clock are left
    as they were. *)
Theorem main_without_file env (mongo : Mongo) (environ : gmap string string)
    (argv : list string) (p : Process) :
  (length argv < 2)%nat →
  main env mongo environ argv p
  = (ExitCode 1,
     {| state := state p; indexes := indexes p; client := client p;
        stdout := stdout p ++ [PrintArgv argv; PrintUsage] |}).
Proof.
  intros Hlen. unfold main.
  destruct argv as [|a [|filepath rest]]; [| |simpl in Hlen; lia];
    by rewrite <- app_assoc.
Qed.



End EntryProps.

(** ** The loader: failed reads, and how the numbers add up *)

Module LoaderAccounts.
Import Py Loader Session LoaderNotions.

(** X24: a call that gets no frame to cleanse, because its read fails or
    because the frame lacks the column [ts] or [device], has done nothing
    yet.  It raises the exception of the read, or the [KeyError]; the
    loader, its counters, the collection and the number of bulk writes are
    as before, and for [load_csv_chunk] so is the clock. *)
Theorem failed_read_changes_nothing env (c : Call) st e :
  frame_read env c = Raise e →
  ∃ st',
    run_call env c st = (Raise e, st') ∧
    self st' = self st ∧ collection st' = collection st ∧
    insert_calls st' = insert_calls st ∧
    (∀ filepath start_row end_row b,
       c = LoadChunk filepath start_row end_row b → st' = st).
Proof.
  destruct c as [filepath start_row end_row b|filepath b];
    unfold run_call; intros Hread.
  - rewrite LoaderFacts.load_csv_chunk_eq, Hread. by exists st.
  - destruct (LoaderFacts.batch_id_or_default_eq env b st)
      as (b' & st1 & Hb & Hs & Hk & Hc & _).
    rewrite (LoaderFacts.load_full_csv_eq _ _ _ _ _ _ Hb), Hread.
    exists st1. by repeat split.
Qed.

(** X25: how the returned numbers add up.  When a call returns, the rows
    it read are the rows left after cleansing plus what the call added to
    the two counters, which the returned [cleansing_stats] show on top of
    the counters the loader had before; for a full load the rows read are
    [total_rows_read].  On a new loader the identity is
    [total_rows_read = rows_after_cleansing + duplicates_removed +
    missing_values_dropped]. *)
Theorem returned_numbers_add_up env (c : Call) st stats st' :
  run_call env c st = (Return stats, st') →
  ∃ df (after : Z) (cs : Cleaner.CleansingStats),
    frame_read env c = Return df ∧
    stats !! "rows_after_cleansing" = Some (SInt after) ∧
    stats !! "cleansing_stats" = Some (SDict cs) ∧
    len df
    = after
      + (Cleaner.duplicates_removed cs
         - Cleaner.duplicates_removed (Cleaner.stats (cleaner (self st))))
      + (Cleaner.missing_values_dropped cs
         - Cleaner.missing_values_dropped (Cleaner.stats (cleaner (self st)))) ∧
    (∀ filepath b, c = LoadFull filepath b →
       stats !! "total_rows_read" = Some (SInt (len df))) ∧
    (self st = __init__ (batch_size (self st)) →
       len df = after + Cleaner.duplicates_removed cs
                + Cleaner.missing_values_dropped cs).
Proof.
  assert (Hsum : ∀ df (s0 : Cleaner.CleansingStats) c0,
    len df
    = len (Cleaner.cleanse c0 df).1
      + (Cleaner.duplicates_removed (stats_add s0 (frame_drops df))
         - Cleaner.duplicates_removed s0)
      + (Cleaner.missing_values_dropped (stats_add s0 (frame_drops df))
         - Cleaner.missing_values_dropped s0)).
  { intros df s0 c0. rewrite CleanerFacts.cleanse_frame.
    unfold stats_add, frame_drops. simpl. lia. }
  destruct c as [filepath start_row end_row b|filepath b]; unfold run_call.
  - rewrite LoaderFacts.load_csv_chunk_eq.
    destruct (frame_read env _) as [df|e]; [|done].
    intros Hp.
    pose proof (LoaderFacts.pipeline_effect _ _ _ _ _ _ _ Hp)
      as (_ & Hst & _).
    apply LoaderFacts.pipeline_return in Hp as [n ->].
    eexists df, _, _. split; [done|].
    match goal with
    | |- context [chunk_stats ?n ?b ?a ?i ?c] =>
        destruct (LoaderFacts.chunk_stats_lookup n b a i c)
          as (_ & L2 & _ & L4 & _)
    end.
    split; [exact L2|]. split; [exact L4|].
    rewrite Hst. split; [apply Hsum|]. split; [done|].
    intros Hnew.
    assert (Hz : Cleaner.stats (cleaner (self st))
                 = Cleaner.stats Cleaner.__init__) by (by rewrite Hnew).
    pose proof (Hsum df (Cleaner.stats (cleaner (self st)))
                  (cleaner (self st))) as H.
    rewrite Hz in H |- *. unfold stats_add in *. simpl in *. lia.
  - destruct (LoaderFacts.batch_id_or_default_eq env b st)
      as (b' & st1 & Hb & Hs & _).
    rewrite (LoaderFacts.load_full_csv_eq _ _ _ _ _ _ Hb).
    destruct (frame_read env _) as [df|e]; [|done].
    intros Hp.
    pose proof (LoaderFacts.pipeline_effect _ _ _ _ _ _ _ Hp)
      as (_ & Hst & _).
    apply LoaderFacts.pipeline_return in Hp as [n ->].
    eexists df, _, _. split; [done|].
    match goal with
    | |- context [full_stats ?n ?b ?a ?i ?c] =>
        destruct (LoaderFacts.full_stats_lookup n b a i c)
          as (L1 & _ & L2 & _ & L4 & _)
    end.
    split; [exact L2|]. split; [exact L4|].
    rewrite Hst, Hs. split; [apply Hsum|]. split; [done|].
    intros Hnew.
    assert (Hz : Cleaner.stats (cleaner (self st))
                 = Cleaner.stats Cleaner.__init__) by (by rewrite Hnew).
    pose proof (Hsum df (Cleaner.stats (cleaner (self st)))
                  (cleaner (self st))) as H.
    rewrite Hz in H |- *. unfold stats_add in *. simpl in *. lia.
Qed.

End LoaderAccounts.

(** ** The further properties at concrete inputs *)

Module Examples2.
Import Py Loader Session Entry Scenario Scenario2 LoaderNotions TextNotions.

Lemma chunk_from_zero_is_full_witness :
  frame_read env10 (LoadChunk "sensors.csv" 0 100 "b1") = Return ten_rows ∧
  frame_read env10 (LoadFull "sensors.csv" None) = Return ten_rows ∧
  call_drops env10 (LoadChunk "sensors.csv" 0 100 "b1")
    = call_drops env10 (LoadFull "sensors.csv" None).
Proof.
  apply (LoaderProps.chunk_from_zero_is_full env10 "sensors.csv"
           {| columns := ["ts"; "device"; "value"]; data := ten_rows |}
           100 "b1" None).
  - vm_compute. reflexivity.
  - refine (bool_decide_unpack _ _). vm_compute. exact I.
  - refine (bool_decide_unpack _ _). vm_compute. exact I.
  - vm_compute. discriminate.
Defined.

Lemma negative_start_row_witness :
  read_csv env10 "sensors.csv" (in_range 1 (-2 + 1)) (Some (3 - -2))
  = Return {| columns := ["ts"; "device"; "value"];
              data := take 5 ten_rows |}.
Proof.
  destruct (LoaderProps.negative_start_row env10 "sensors.csv"
              (Some header_line :: (Some <$> ten_lines)) header_line
              ten_lines (-2) 3 "b1" (start 1000)) as [Hread _].
  - reflexivity.
  - reflexivity.
  - lia.
  - lia.
  - reflexivity.
  - refine (bool_decide_unpack _ _). vm_compute. exact I.
  - refine (bool_decide_unpack _ _). vm_compute. exact I.
  - exact Hread.
Defined.


Lemma sub_batches_partition_witness :
  concat (sub_batches seven_records 3) = seven_records ∧
  length (sub_batches seven_records 3) = n_batches (len seven_records) 3.
Proof.
  destruct (LoaderProps.sub_batches_partition seven_records 3 ltac:(lia))
    as (Hcat & Hlen & _).
  split; [exact Hcat|exact Hlen].
Defined.

Lemma rows_inserted_counts_writes_witness :
  ∃ records new : list Document,
    collection
      (run_call env10_rejecting (LoadChunk "sensors.csv" 0 10 "b1")
         (start 5)).2
      = collection (start 5) ++ new ∧
    new `sublist_of` records ∧
    stat (run_call env10_rejecting (LoadChunk "sensors.csv" 0 10 "b1")
            (start 5)).1 "rows_inserted" = Some (SInt (len new)).
Proof.
  destruct (run_call env10_rejecting (LoadChunk "sensors.csv" 0 10 "b1")
              (start 5)) as [[stats|e] st'] eqn:Hrun.
  - destruct (LoaderProps.rows_inserted_counts_writes _ _ _ _ _ Hrun)
      as (df & b & records & new & _ & _ & _ & _ & Hc & Hsub & _ & Hins & _).
    exists records, new. split; [exact Hc|]. split; [exact Hsub|exact Hins].
  - apply (f_equal (λ out, stat out.1 "rows_inserted")) in Hrun.
    vm_compute in Hrun. discriminate Hrun.
Defined.

Lemma all_documents_written_witness :
  ∃ stats st' (records : list Document),
    run_call env10 (LoadFull "sensors.csv" None) (start 3)
      = (Return stats, st') ∧
    collection st' = collection (start 3) ++ records ∧
    stats !! "rows_inserted" = Some (SInt (len records)).
Proof.
  destruct (LoaderProps.all_documents_written env10
              (LoadFull "sensors.csv" None) (start 3) ten_rows)
    as (stats & st' & records & Hrun & _ & Hc & _ & _ & Hins);
    [simpl; lia|intros k; reflexivity|intros k i; reflexivity
    |vm_compute; reflexivity|].
  exists stats, st', records. split; [exact Hrun|]. split; [exact Hc|exact Hins].
Defined.

Lemma negative_batch_size_writes_nothing_witness :
  ∃ stats st',
    run_call env10 (LoadFull "sensors.csv" None) (start (-1))
      = (Return stats, st') ∧
    stats !! "rows_inserted" = Some (SInt 0) ∧
    collection st' = collection (start (-1)).
Proof.
  destruct (LoaderProps.negative_batch_size_writes_nothing env10
              (LoadFull "sensors.csv" None) (start (-1)) ten_rows)
    as (stats & st' & Hrun & _ & Hins & Hc & _);
    [simpl; lia|vm_compute; reflexivity|].
  exists stats, st'. split; [exact Hrun|]. split; [exact Hins|exact Hc].
Defined.

Lemma store_failure_keeps_partial_writes_witness :
  ∃ st' (records : list Document),
    run_call env10_down (LoadChunk "sensors.csv" 0 10 "b1") (start 3)
      = (Raise ServerSelectionTimeoutError, st') ∧
    collection st'
      = collection (start 3)
        ++ written env10_down 0 (take 1 (sub_batches records 3)) ∧
    insert_calls st' = 2%nat.
Proof.
  destruct (LoaderProps.store_failure_keeps_partial_writes env10_down
              (LoadChunk "sensors.csv" 0 10 "b1") (start 3) ten_rows 1)
    as (st' & records & Hrun & _ & Hc & Hk & _);
    [simpl; lia|vm_compute; reflexivity|vm_compute; lia
    |intros k Hk; simpl in Hk; by replace k with 0%nat by lia
    |reflexivity|].
  exists st', records. split; [exact Hrun|]. split; [exact Hc|exact Hk].
Defined.

Lemma row_count_any_terminator_witness :
  get_csv_row_count
    (env_text (write_lines_eol eol_CRLF header_line ten_lines true))
    "sensors.csv" = Return 10 ∧
  get_csv_row_count
    (env_text (write_lines_eol eol_CR header_line ten_lines false))
    "sensors.csv" = Return 10.
Proof.
  split.
  - apply (TextProps.row_count_any_terminator
             (env_text (write_lines_eol eol_CRLF header_line ten_lines true))
             "sensors.csv" eol_CRLF header_line ten_lines true).
    + refine (bool_decide_unpack _ _). vm_compute. exact I.
    + refine (bool_decide_unpack _ _). vm_compute. exact I.
    + reflexivity.
  - apply (TextProps.row_count_any_terminator
             (env_text (write_lines_eol eol_CR header_line ten_lines false))
             "sensors.csv" eol_CR header_line ten_lines false).
    + refine (bool_decide_unpack _ _). vm_compute. exact I.
    + refine (bool_decide_unpack _ _). vm_compute. exact I.
    + reflexivity.
Defined.

Lemma main_without_file_witness :
  main env10 mongo_up ∅ ["batch_loader.py"] idle
  = (ExitCode 1,
     {| state := state idle; indexes := indexes idle; client := client idle;
        stdout := stdout idle
                  ++ [PrintArgv ["batch_loader.py"]; PrintUsage] |}).
Proof.
  apply (EntryProps.main_without_file env10 mongo_up ∅ ["batch_loader.py"]
           idle).
  simpl. lia.
Defined.


Lemma failed_read_changes_nothing_witness :
  ∃ st',
    run_call env10 (LoadChunk "missing.csv" 0 10 "b1") (start 1000)
      = (Raise FileNotFoundError, st') ∧
    collection st' = collection (start 1000).
Proof.
  destruct (LoaderAccounts.failed_read_changes_nothing env10
              (LoadChunk "missing.csv" 0 10 "b1") (start 1000)
              FileNotFoundError) as (st' & Hrun & _ & Hc & _);
    [reflexivity|].
  exists st'. split; [exact Hrun|exact Hc].
Defined.

Lemma returned_numbers_add_up_witness :
  ∃ df (after : Z) (cs : Cleaner.CleansingStats),
    frame_read env10 (LoadFull "sensors.csv" None) = Return df ∧
    stat (run_call env10 (LoadFull "sensors.csv" None) (start 1000)).1
      "rows_after_cleansing" = Some (SInt after) ∧
    stat (run_call env10 (LoadFull "sensors.csv" None) (start 1000)).1
      "cleansing_stats" = Some (SDict cs) ∧
    len df = after + Cleaner.duplicates_removed cs
             + Cleaner.missing_values_dropped cs.
Proof.
  destruct (run_call env10 (LoadFull "sensors.csv" None) (start 1000))
    as [[stats|e] st'] eqn:Hrun.
  - destruct (LoaderAccounts.returned_numbers_add_up _ _ _ _ _ Hrun)
      as (df & after & cs & Hread & Hafter & Hcs & _ & _ & Hsum).
    exists df, after, cs. split; [exact Hread|]. split; [exact Hafter|].
    split; [exact Hcs|]. apply Hsum. reflexivity.
  - apply (f_equal (λ out, stat out.1 "rows_inserted")) in Hrun.
    vm_compute in Hrun. discriminate Hrun.
Defined.

End Examples2.
